(** * go-website2: a file-backed wiki with YouTube embeds and votes

    A shallow embedding of the Go sources (helper.go, main.go and the page
    handlers) together with the properties of the slug layer, the YouTube
    link extractor, the page store, the link store and the vote store.

    Go strings are byte sequences: they are modelled by [string], whose
    characters ([ascii]) are exactly the 256 byte values. *)

From Stdlib Require Import ZArith Ascii String List Bool Lia.
From stdpp Require Import gmap strings list sorting.

Local Open Scope char_scope.

(** ** Bytes and the character classes of the regular expressions *)

Definition byteval (c : ascii) : N := N_of_ascii c.

Definition inRange (lo hi c : ascii) : bool :=
  (byteval lo <=? byteval c)%N && (byteval c <=? byteval hi)%N.

Definition isLower (c : ascii) : bool := inRange "a" "z" c.
Definition isUpper (c : ascii) : bool := inRange "A" "Z" c.
Definition isDigit (c : ascii) : bool := inRange "0" "9" c.

(** utf8.RuneSelf = 0x80: bytes below it are single-byte runes. *)
Definition RuneSelf : N := 128.
Definition isASCIIbyte (c : ascii) : bool := (byteval c <? RuneSelf)%N.

(** The class [a-z0-9_-] that [illegalCharPattern] negates. *)
Definition nameClass (c : ascii) : bool :=
  isLower c || isDigit c || Ascii.eqb c "_" || Ascii.eqb c "-".

(** The class [a-zA-Z0-9-] that [slugRegex] negates. *)
Definition slugClass (c : ascii) : bool :=
  isLower c || isUpper c || isDigit c || Ascii.eqb c "-".

(** The class [a-zA-Z0-9\-_] of the capturing group of [youtubeRegex]. *)
Definition idClass (c : ascii) : bool :=
  isLower c || isUpper c || isDigit c || Ascii.eqb c "-" || Ascii.eqb c "_".

(** ** The part of package strings the handlers use *)

Fixpoint chars (s : string) : list ascii :=
  match s with
  | EmptyString => []
  | String c s' => c :: chars s'
  end.

Fixpoint anyChar (p : ascii -> bool) (s : string) : bool :=
  match s with
  | EmptyString => false
  | String c s' => p c || anyChar p s'
  end.

Fixpoint allChars (p : ascii -> bool) (s : string) : bool :=
  match s with
  | EmptyString => true
  | String c s' => p c && allChars p s'
  end.

Fixpoint mapChars (f : ascii -> ascii) (s : string) : string :=
  match s with
  | EmptyString => EmptyString
  | String c s' => String (f c) (mapChars f s')
  end.

Fixpoint keepChars (p : ascii -> bool) (s : string) : string :=
  match s with
  | EmptyString => EmptyString
  | String c s' => if p c then String c (keepChars p s') else keepChars p s'
  end.

(** [stripPrefix p s] is [Some rest] when [s = p ++ rest]
    (strings.HasPrefix together with the slice that follows it). *)
Fixpoint stripPrefix (p s : string) : option string :=
  match p with
  | EmptyString => Some s
  | String a p' =>
      match s with
      | EmptyString => None
      | String b s' => if Ascii.eqb a b then stripPrefix p' s' else None
      end
  end.

Definition HasPrefix (s p : string) : bool :=
  match stripPrefix p s with Some _ => true | None => false end.

(** strings.HasSuffix and strings.TrimSuffix. *)
Definition HasSuffix (s suffix : string) : bool :=
  (String.length suffix <=? String.length s)%nat &&
  String.eqb (substring (String.length s - String.length suffix)
                        (String.length suffix) s) suffix.

Definition TrimSuffix (s suffix : string) : string :=
  if HasSuffix s suffix
  then substring 0 (String.length s - String.length suffix) s
  else s.

(** strings.Split(s, sep) for a one-byte separator: the pieces between the
    separators, empty pieces included; never the empty list. *)
Fixpoint Split (s : string) (sep : ascii) : list string :=
  match s with
  | EmptyString => [EmptyString]
  | String c s' =>
      if Ascii.eqb c sep then EmptyString :: Split s' sep
      else match Split s' sep with
           | [] => [String c EmptyString]
           | piece :: rest => String c piece :: rest
           end
  end.

(** strings.ReplaceAll(s, old, new) for one-byte [old] and [new]. *)
Definition ReplaceAll (s : string) (old new : ascii) : string :=
  mapChars (fun c => if Ascii.eqb c old then new else c) s.

(** strings.ToLower. An ASCII-only string is lowered byte by byte (and
    returned as it is when it has no upper-case letter); any other string
    goes through strings.Map(unicode.ToLower, s), which depends on the
    Unicode tables and is taken as the parameter [mapLower]. *)
Definition lowerByte (c : ascii) : ascii :=
  if isUpper c then ascii_of_N (byteval c + 32) else c.

Definition ToLower (mapLower : string -> string) (s : string) : string :=
  if allChars isASCIIbyte s then
    if negb (anyChar isUpper s) then s else mapChars lowerByte s
  else mapLower s.

(** ** helper.go *)

(** illegalCharPattern = `[^a-z0-9_-]`. The pattern is one negated class, so
    MatchString holds when some rune falls outside the class. Every byte of
    a multi-byte (or invalid) rune is at least 0x80 and so outside the
    class as well: matching can be decided byte by byte. *)
Definition illegalCharPattern_MatchString (name : string) : bool :=
  anyChar (fun c => negb (nameClass c)) name.

(** A Go [error]: [None] is nil. *)
Definition error := option string.

Definition charchecker (name : string) : error :=
  if illegalCharPattern_MatchString name
  then Some "name contains bad characters"%string
  else None.

(** ** A backtracking matcher for the fragment of Go regular expressions
       that [youtubeRegex] uses

    Go's regexp package returns the leftmost match and, among the matches
    that start there, the one a backtracking matcher finds first (earlier
    alternatives first, [?] and [+] greedy). [reMatch] is that matcher in
    continuation-passing style: the continuation receives the text that is
    left and the captures made so far, and a [None] from it makes the
    matcher try its next choice. The pattern is ASCII only, so matching on
    bytes and matching on runes agree. *)

Inductive regex : Type :=
  | Lit (l : string)                 (* a literal text *)
  | PlusClass (p : ascii -> bool)    (* [class]+ *)
  | Seq (r1 r2 : regex)              (* r1 r2 *)
  | Alt (r1 r2 : regex)              (* r1|r2 *)
  | Opt (r : regex)                  (* (?:r)? *)
  | Group (r : regex).               (* (r), capturing *)

(** What a sub-match consumed: [s] without its tail [rest]. *)
Definition consumed (s rest : string) : string :=
  substring 0 (String.length s - String.length rest) s.

Fixpoint plusFrom {A} (p : ascii -> bool) (s : string)
    (k : string -> option A) : option A :=
  match s with
  | EmptyString => None
  | String c s' =>
      if p c then
        match plusFrom p s' k with
        | Some x => Some x
        | None => k s'
        end
      else None
  end.

Fixpoint reMatch {A} (r : regex) (s : string) (caps : list string)
    (k : string -> list string -> option A) : option A :=
  match r with
  | Lit l =>
      match stripPrefix l s with
      | Some rest => k rest caps
      | None => None
      end
  | PlusClass p => plusFrom p s (fun rest => k rest caps)
  | Seq r1 r2 => reMatch r1 s caps (fun s' caps' => reMatch r2 s' caps' k)
  | Alt r1 r2 =>
      match reMatch r1 s caps k with
      | Some x => Some x
      | None => reMatch r2 s caps k
      end
  | Opt r1 =>
      match reMatch r1 s caps k with
      | Some x => Some x
      | None => k s caps
      end
  | Group r1 =>
      reMatch r1 s caps (fun rest caps' => k rest (caps' ++ [consumed s rest]))
  end.

(** A match anchored at the start of [s]: the whole match followed by the
    captures. *)
Definition matchAt (r : regex) (s : string) : option (list string) :=
  reMatch r s [] (fun rest caps => Some (consumed s rest :: caps)).

(** Regexp.FindStringSubmatch: the leftmost match, nil ([[]]) when there is
    none. *)
Fixpoint FindStringSubmatch (r : regex) (s : string) : list string :=
  match matchAt r s with
  | Some m => m
  | None =>
      match s with
      | EmptyString => []
      | String _ s' => FindStringSubmatch r s'
      end
  end.

(** youtubeRegex =
    `(?:https?:\/\/)?(?:www\.)?(?:youtube\.com\/(?:watch\?v=|embed\/)|youtu\.be\/)([a-zA-Z0-9\-_]+)` *)
Definition youtubeRegex : regex :=
  Seq (Opt (Seq (Lit "http") (Seq (Opt (Lit "s")) (Lit "://"))))
 (Seq (Opt (Lit "www."))
 (Seq (Alt (Seq (Lit "youtube.com/") (Alt (Lit "watch?v=") (Lit "embed/")))
           (Lit "youtu.be/"))
      (Group (PlusClass idClass)))).

Definition embedPrefix : string := "https://www.youtube.com/embed/".

(** extractYouTubeVideoInfo (helper.go): the embed URL and the video ID,
    two empty strings when no URL is found. *)
Definition extractYouTubeVideoInfo (text : string) : string * string :=
  let matches := FindStringSubmatch youtubeRegex text in
  if (1 <? length matches)%nat then
    let videoID := nth 1 matches EmptyString in
    let embedURL := embedPrefix +:+ videoID in
    (embedURL, videoID)
  else (EmptyString, EmptyString).

(** processYouTubeURL (the earlier helper, used by the page viewer). *)
Definition processYouTubeURL (text : string) : string :=
  let matches := FindStringSubmatch youtubeRegex text in
  if (1 <? length matches)%nat then
    let videoID := nth 1 matches EmptyString in
    embedPrefix +:+ videoID
  else EmptyString.

Local Open Scope string_scope.

(** ** path/filepath on a Unix system (Separator = '/', no volume names) *)

Definition isSlash (c : ascii) : bool := Ascii.eqb c "/".

(** The loop of filepath.Base that strips the trailing slashes. *)
Fixpoint trimTrailingSlashes (path : string) : string :=
  match path with
  | EmptyString => EmptyString
  | String c rest =>
      match trimTrailingSlashes rest with
      | EmptyString => if isSlash c then EmptyString else String c EmptyString
      | t => String c t
      end
  end.

(** filepath.Base: the last element of the path; "." for the empty path and
    "/" for a path of slashes only. *)
Definition Base (path : string) : string :=
  if String.eqb path "" then "."
  else
    let path1 := trimTrailingSlashes path in
    let path2 := List.last (Split path1 "/") "" in
    if String.eqb path2 "" then "/" else path2.

(** One path element in the loop of filepath.Clean. [out] is the stack of
    the elements kept so far (most recent first); in a path that is not
    rooted it may start with ".." elements, which cannot be removed. *)
Definition cleanStep (rooted : bool) (out : list string) (e : string)
    : list string :=
  if String.eqb e "" || String.eqb e "." then out
  else if String.eqb e ".." then
    match out with
    | top :: out' =>
        if String.eqb top ".." then (if rooted then out else e :: out)
        else out'
    | [] => if rooted then out else [e]
    end
  else e :: out.

(** filepath.Clean: the shortest equivalent path by lexical processing. *)
Definition Clean (path : string) : string :=
  if String.eqb path "" then "."
  else
    let rooted := match path with String c _ => isSlash c | _ => false end in
    let out := rev (fold_left (cleanStep rooted) (Split path "/") []) in
    if rooted then "/" +:+ String.concat "/" out
    else match out with
         | [] => "."
         | _ => String.concat "/" out
         end.

(** filepath.Join: the elements from the first non-empty one on, joined by
    the separator and cleaned; the empty string when all are empty. *)
Fixpoint Join (elem : list string) : string :=
  match elem with
  | [] => ""
  | e :: rest =>
      if String.eqb e "" then Join rest
      else Clean (String.concat "/" elem)
  end.


(** ** The file system, as package os shows it to the handlers

    A store from cleaned paths to nodes. The working directory holds the
    directory "pages"; reading fails for a missing path and for a
    directory; writing fails for a directory and for a name that the
    operating system refuses (a NUL byte, a path element longer than
    NAME_MAX bytes), so no such name is ever in a store. Failures of the
    environment (a full disk, missing rights, a removed "pages") are
    outside the model. *)

Inductive node : Type :=
  | File (content : string)
  | Dir.

Abbreviation filesystem := (gmap string node).

(** os.ReadFile: [None] stands for a non-nil error. *)
Definition ReadFile (fs : filesystem) (name : string) : option string :=
  match fs !! name with
  | Some (File content) => Some content
  | _ => None
  end.

(** os.Stat: does it succeed (err == nil)? *)
Definition Stat (fs : filesystem) (name : string) : bool :=
  match fs !! name with
  | Some _ => true
  | None => false
  end.

(** The limit of the operating system on one element of a path (NAME_MAX
    of Linux), and the byte that ends a C string. *)
Definition NAME_MAX : nat := 255.
Definition NUL : ascii := "000"%char.

(** Does the operating system take the path as the name of a file: it has
    no NUL byte (EINVAL) and no element longer than NAME_MAX bytes
    (ENAMETOOLONG). *)
Definition osAcceptsName (name : string) : bool :=
  negb (anyChar (fun c => Ascii.eqb c NUL) name) &&
  forallb (fun e => (String.length e <=? NAME_MAX)%nat) (Split name "/").

(** os.WriteFile: creates or truncates the file. *)
Definition WriteFile (fs : filesystem) (name data : string)
    : option filesystem :=
  if osAcceptsName name then
    match fs !! name with
    | Some Dir => None
    | _ => Some (<[name := File data]> fs)
    end
  else None.

(** os.OpenFile(name, O_APPEND|O_CREATE|O_WRONLY, 0644) followed by
    WriteString: the data goes after the present content. *)
Definition AppendFile (fs : filesystem) (name data : string)
    : option filesystem :=
  if osAcceptsName name then
    match fs !! name with
    | Some Dir => None
    | Some (File content) => Some (<[name := File (content +:+ data)]> fs)
    | None => Some (<[name := File data]> fs)
    end
  else None.

Record DirEntry : Type := { Name : string; IsDir : bool }.

Definition isDirNode (n : node) : bool :=
  match n with Dir => true | File _ => false end.

(** The entry of [dir] that a stored path denotes, if it lies directly in
    that directory. *)
Definition entryIn (dir : string) (kv : string * node) : option DirEntry :=
  match stripPrefix (dir +:+ "/") kv.1 with
  | Some name =>
      if String.eqb name "" || anyChar isSlash name then None
      else Some {| Name := name; IsDir := isDirNode kv.2 |}
  | None => None
  end.

Definition entryLe (a b : DirEntry) : Prop := String.le (Name a) (Name b).

Global Instance entryLe_dec : RelDecision entryLe.
Proof. intros a b. unfold entryLe. apply _. Defined.

(** os.ReadDir: the entries of the directory, sorted by file name. *)
Definition ReadDir (fs : filesystem) (dir : string) : list DirEntry :=
  merge_sort entryLe (omap (entryIn dir) (map_to_list fs)).

(** ** Requests and responses

    [Decoded] is what json.NewDecoder(r.Body).Decode gives for the one-field
    struct of the handler: the value of the field ([""] when the body has no
    such field), or [None] when Decode returns an error. *)

Record Request : Type := {
  Method : string;
  URLPath : string;
  Decoded : option string
}.

Definition StatusOK : nat := 200.
Definition StatusFound : nat := 302.
Definition StatusSeeOther : nat := 303.
Definition StatusBadRequest : nat := 400.
Definition StatusNotFound : nat := 404.
Definition StatusMethodNotAllowed : nat := 405.
Definition StatusInternalServerError : nat := 500.
Definition MethodPost : string := "POST".

(** The page value handed to the template page.html (main.go). *)
Record Page : Type := {
  Title : string;
  Body : string;
  YouTubeEmbed : list string
}.

Inductive Response : Type :=
  | HttpError (msg : string) (code : nat)     (* http.Error *)
  | HttpRedirect (url : string) (code : nat)  (* http.Redirect *)
  | HttpNotFound                              (* http.NotFound *)
  | Wrote (code : nat) (body : string)        (* WriteHeader, Write *)
  | RenderIndex (pageNames : list string)     (* index.html *)
  | RenderPage (pageData : Page)              (* page.html *)
  | Panicked.                                 (* a run-time panic *)

(** The slice expression s[n:], which panics when n > len(s). *)
Definition sliceFrom (n : nat) (s : string) : option string :=
  if (n <=? String.length s)%nat
  then Some (substring n (String.length s - n) s)
  else None.

(** ** indexHandler (main.go): the page list *)

Definition pageNamesOf (files : list DirEntry) : list string :=
  fold_left
    (fun pageNames file =>
       if negb (IsDir file) && HasSuffix (Name file) ".txt"
       then (pageNames ++ [TrimSuffix (Name file) ".txt"])%list
       else pageNames)
    files [].

Definition indexHandler (r : Request) (fs : filesystem)
    : Response * filesystem :=
  let files := ReadDir fs "pages" in
  (RenderIndex (pageNamesOf files), fs).

(** ** pageViewHandler (main.go): the page viewer and the link list *)

(** The file the viewer opens for a request path. *)
Definition pageFilename (slug : string) : string :=
  let safeSlug := Base slug in
  Join ["pages"; safeSlug +:+ ".txt"].

Definition youtubeFilename (slug : string) : string :=
  let safeSlug := Base slug in
  Join ["pages"; safeSlug +:+ ".youtube.txt"].

Definition newline : ascii := "010"%char.

(** The loop over the lines of the link file. *)
Definition embedURLsOf (youtubeURLs : string) : list string :=
  fold_left
    (fun embedURLs url =>
       if negb (String.eqb url "")
       then (embedURLs ++ [processYouTubeURL url])%list
       else embedURLs)
    (Split youtubeURLs newline) [].

(** The link list of a page: nil when the link file cannot be read. *)
Definition linkList (fs : filesystem) (slug : string) : list string :=
  match ReadFile fs (youtubeFilename slug) with
  | Some youtubeURLs => embedURLsOf youtubeURLs
  | None => []
  end.

Definition pageViewHandler (r : Request) (fs : filesystem)
    : Response * filesystem :=
  match sliceFrom (String.length "/page/") (URLPath r) with
  | None => (Panicked, fs)
  | Some slug =>
      let safeSlug := Base slug in
      let filename := Join ["pages"; safeSlug +:+ ".txt"] in
      match ReadFile fs filename with
      | None => (HttpNotFound, fs)
      | Some body =>
          let embedURLs := linkList fs slug in
          (RenderPage {| Title := safeSlug; Body := body;
                         YouTubeEmbed := embedURLs |}, fs)
      end
  end.

(** ** youtubeSaveHandler (the appending version): the link store *)

Definition youtubeSaveHandler (r : Request) (fs : filesystem)
    : Response * filesystem :=
  if negb (String.eqb (Method r) MethodPost) then
    (HttpError "Invalid method" StatusMethodNotAllowed, fs)
  else
    let pathParts := Split (URLPath r) "/" in
    if (length pathParts <? 4)%nat then
      (HttpError "Invalid URL" StatusBadRequest, fs)
    else
      let slug := nth 3 pathParts "" in
      match Decoded r with
      | None => (HttpError "Bad request" StatusBadRequest, fs)
      | Some URL =>
          let '(embedURL, _) := extractYouTubeVideoInfo URL in
          if String.eqb embedURL "" then
            (HttpError "Invalid YouTube URL" StatusBadRequest, fs)
          else
            let filename := Join ["pages"; slug +:+ ".youtube.txt"] in
            match AppendFile fs filename (URL +:+ String newline "") with
            | None =>
                (HttpError "Could not save link" StatusInternalServerError, fs)
            | Some fs' => (Wrote StatusOK "YouTube link saved!", fs')
            end
      end.

(** ** createPageHandler (main.go): the page store *)

Section PageStore.

(** strings.Map(unicode.ToLower, s), see [ToLower]. *)
Variable mapLower : string -> string.

(** slugRegex = "[^a-zA-Z0-9-]+"; ReplaceAllString(slug, "") removes
      every run of bytes outside the class. *)
Definition slugRegex_ReplaceAllString_empty (s : string) : string :=
    keepChars slugClass s.

(** Step 1 of the handler: the name turned into a slug. *)
Definition deriveSlug (name : string) : string :=
    let slug := ToLower mapLower name in
    let slug := ReplaceAll slug " " "-" in
    let slug := slugRegex_ReplaceAllString_empty slug in
    if String.eqb slug "" then "untitled" else slug.

Definition createPageHandler (r : Request) (fs : filesystem)
      : Response * filesystem :=
    if negb (String.eqb (Method r) MethodPost) then
      (HttpError "Invalid method" StatusMethodNotAllowed, fs)
    else
      match Decoded r with
      | None => (HttpError "Bad request" StatusBadRequest, fs)
      | Some name =>
          match charchecker name with
          | Some _ =>
              (HttpError
                 "Bad name found, try again. Cannot use symbols, try words only."
                 StatusBadRequest, fs)
          | None =>
              if String.eqb name "" || String.eqb name " " then
                (HttpError "Page name is required" StatusBadRequest, fs)
              else
                let slug := deriveSlug name in
                let filename := Join ["pages"; slug +:+ ".txt"] in
                if Stat fs filename then
                  (HttpRedirect ("/page/" +:+ slug) StatusFound, fs)
                else
                  let defaultBody :=
                    "This is the new page for **" +:+ name +:+ "**" in
                  match WriteFile fs filename defaultBody with
                  | None =>
                      (HttpError "Could not save page"
                                 StatusInternalServerError, fs)
                  | Some fs' =>
                      (HttpRedirect ("/page/" +:+ slug) StatusSeeOther, fs')
                  end
          end
      end.

End PageStore.

(** ** youtubeVoteHandler: the vote store *)

(** A Go [int] (64 bits): increments wrap around. *)
Definition wrapInt (z : Z) : Z :=
  ((z + 2 ^ 63) mod 2 ^ 64 - 2 ^ 63)%Z.

(** What json.Unmarshal(data, &votes) leaves behind: an error; the nil map,
    for the JSON value null; or the entries it read into the map. *)
Inductive Unmarshaled : Type :=
  | UnmarshalError
  | NilMap
  | Votes (votes : gmap string Z).

Section VoteStore.

(** encoding/json on a map[string]int: Marshal does not fail for such a
    map; Unmarshal is taken by what it leaves in [votes]. *)
Variable json_Marshal : gmap string Z -> string.
Variable json_Unmarshal : string -> Unmarshaled.

Definition youtubeVoteHandler (r : Request) (fs : filesystem)
      : Response * filesystem :=
    if negb (String.eqb (Method r) MethodPost) then
      (HttpError "Invalid method" StatusMethodNotAllowed, fs)
    else
      let pathParts := Split (URLPath r) "/" in
      if (length pathParts <? 5)%nat then
        (HttpError "Invalid URL" StatusBadRequest, fs)
      else
        let slug := nth 2 pathParts "" in
        let videoID := nth 3 pathParts "" in
        let action := nth 4 pathParts "" in
        if negb (String.eqb action "upvote") &&
           negb (String.eqb action "downvote") then
          (HttpError "Invalid action" StatusBadRequest, fs)
        else
          let votesFilename := Join ["pages"; slug +:+ ".votes.json"] in
          let loaded :=
            match ReadFile fs votesFilename with
            | Some data => json_Unmarshal data
            | None => Votes ∅
            end in
          match loaded with
          | UnmarshalError =>
              (HttpError "Could not process votes"
                         StatusInternalServerError, fs)
          | NilMap =>
              (* votes[videoID]++ is an assignment to an entry of a nil map *)
              (Panicked, fs)
          | Votes votes =>
              let count := default 0%Z (votes !! videoID) in
              let votes :=
                if String.eqb action "upvote"
                then <[videoID := wrapInt (count + 1)]> votes
                else <[videoID := wrapInt (count - 1)]> votes in
              let updatedData := json_Marshal votes in
              match WriteFile fs votesFilename updatedData with
              | None =>
                  (HttpError "Could not save vote"
                             StatusInternalServerError, fs)
              | Some fs' => (Wrote StatusOK "Vote saved!", fs')
              end
          end.

End VoteStore.

(** ** Predicates of the specification *)

(** The allow-list of the name validation, on byte values:
    a-z, 0-9, underscore, hyphen. *)
Definition allowedNameByte (c : ascii) : Prop :=
  (97 <= byteval c <= 122)%N \/ (48 <= byteval c <= 57)%N \/
  byteval c = 95%N \/ byteval c = 45%N.

(** The bytes a derived slug is made of: a-z, 0-9, hyphen. *)
Definition slugByte (c : ascii) : bool :=
  isLower c || isDigit c || Ascii.eqb c "-".


(** The language of a regular expression of the fragment, with the
    captures a match makes: [matches r w cs] says that the text [w] as a
    whole matches [r] and that its groups captured [cs]. *)
Inductive matches : regex -> string -> list string -> Prop :=
  | matches_Lit l : matches (Lit l) l []
  | matches_Plus p w :
      w <> "" -> allChars p w = true -> matches (PlusClass p) w []
  | matches_Seq r1 r2 w1 w2 cs1 cs2 :
      matches r1 w1 cs1 -> matches r2 w2 cs2 ->
      matches (Seq r1 r2) (w1 +:+ w2) (cs1 ++ cs2)%list
  | matches_Alt_l r1 r2 w cs : matches r1 w cs -> matches (Alt r1 r2) w cs
  | matches_Alt_r r1 r2 w cs : matches r2 w cs -> matches (Alt r1 r2) w cs
  | matches_Opt_some r w cs : matches r w cs -> matches (Opt r) w cs
  | matches_Opt_none r : matches (Opt r) "" []
  | matches_Group r w cs :
      matches r w cs -> matches (Group r) w (cs ++ [w])%list.

(** The three places a video ID follows, and what may stand before them. *)
Definition youtubeHosts : list string :=
  ["youtube.com/watch?v="; "youtube.com/embed/"; "youtu.be/"].

Definition urlPrefixes : list string :=
  [""; "www."; "http://"; "http://www."; "https://"; "https://www."].

(** The text holds a YouTube reference: somewhere in it one of the hosts
    is followed by a byte of the video ID charset. *)
Definition hasYouTubeRef (text : string) : Prop :=
  exists before host c rest,
    In host youtubeHosts /\ idClass c = true /\
    text = before +:+ host +:+ String c rest.

(** strings.Map(unicode.ToLower, s) on the texts whose runes outside ASCII
    have no lower-case form of their own: the ASCII letters are lowered,
    every other byte stays. *)
Definition asciiMapLower (s : string) : string := mapChars lowerByte s.

(** A text after which a video ID ends: the end of the text or a byte
    outside the ID charset. *)
Definition idStop (rest : string) : bool :=
  match rest with
  | EmptyString => true
  | String c _ => negb (idClass c)
  end.

(** A path that names an entry of the directory "pages" itself: two
    elements, the second one a proper file name. *)
Definition directlyInPages (path : string) : Prop :=
  exists name,
    path = "pages/" +:+ name /\ Split path "/" = ["pages"; name] /\
    name <> "" /\ name <> "." /\ name <> "..".


(** The link list as the specification words it, without its filter on
    the extractions: the non-empty lines of the file, each one through the
    extractor, in their order. *)
Definition embedURLs_spec (youtubeURLs : string) : list string :=
  List.map processYouTubeURL
    (List.filter (fun url => negb (String.eqb url ""))
                 (Split youtubeURLs newline)).

(** An embed URL of a video ID. *)
Definition isEmbedURL (u : string) : Prop :=
  exists id, id <> "" /\ allChars idClass id = true /\ u = embedPrefix +:+ id.

(** A request as the HTTP layer hands it to a handler. *)
Definition request (method path : string) (decoded : option string)
    : Request :=
  {| Method := method; URLPath := path; Decoded := decoded |}.

(** The documented vote request: POST /api/vote/{slug}/{videoID}/{action}. *)
Definition voteRequest (slug videoID action : string) : Request :=
  request "POST" ("/api/vote/" +:+ slug +:+ "/" +:+ videoID +:+ "/" +:+ action)
          None.

(** Requests served one after the other by the same handler. *)
Fixpoint serve (handler : Request -> filesystem -> Response * filesystem)
    (rs : list Request) (fs : filesystem) : list Response * filesystem :=
  match rs with
  | [] => ([], fs)
  | r :: rs' =>
      let '(resp, fs1) := handler r fs in
      let '(resps, fs2) := serve handler rs' fs1 in
      (resp :: resps, fs2)
  end.

(** A stand-in for encoding/json where a request never reaches it. *)
Definition unusedMarshal (votes : gmap string Z) : string := "".
Definition unusedUnmarshal (data : string) : Unmarshaled := UnmarshalError.
(** A validated page name of 250 letters: its page file name has 254
    bytes, its link file name 262. *)
Definition longSlug : string :=
  string_of_list_ascii (List.repeat "a"%char 250).

(** ** youtubeSaveHandler, the first version (main.go): one link per page *)


(** ** Further predicates of the properties *)




(** The request in the layout that the indices of youtubeVoteHandler fit:
    POST /api/vote/{videoID}/{action}. *)
Definition shortVoteRequest (videoID : string) (up : bool) : Request :=
  request "POST"
    ("/api/vote/" +:+ videoID +:+ "/" +:+ (if up then "upvote" else "downvote"))
    None.

(** The sum of a run of votes: +1 for an upvote, -1 for a downvote. *)
Definition voteSum (ups : list bool) : Z :=
  fold_right (fun (up : bool) acc => (acc + (if up then 1 else -1))%Z) 0%Z ups.

(** A small codec used where a concrete one is needed: a map is written
    as the binary digits of its code. It has the one property the vote
    store needs of encoding/json, that reading gives back what was
    written. *)
Fixpoint digitsOf (p : positive) : string :=
  match p with
  | xH => ""
  | xO q => String "0" (digitsOf q)
  | xI q => String "1" (digitsOf q)
  end.

Fixpoint ofDigits (s : string) : option positive :=
  match s with
  | EmptyString => Some xH
  | String c s' =>
      if Ascii.eqb c "0" then option_map xO (ofDigits s')
      else if Ascii.eqb c "1" then option_map xI (ofDigits s')
      else None
  end.

Definition digitsMarshal (votes : gmap string Z) : string :=
  digitsOf (encode votes).

Definition digitsUnmarshal (data : string) : Unmarshaled :=
  match ofDigits data with
  | Some p =>
      match decode p with
      | Some votes => Votes votes
      | None => UnmarshalError
      end
  | None => UnmarshalError
  end.

(** The longest run of bytes of a class at the start of a text, and what
    follows it. *)
Fixpoint takeChars (p : ascii -> bool) (s : string) : string :=
  match s with
  | EmptyString => EmptyString
  | String c s' => if p c then String c (takeChars p s') else EmptyString
  end.

Fixpoint dropChars (p : ascii -> bool) (s : string) : string :=
  match s with
  | EmptyString => EmptyString
  | String c s' => if p c then dropChars p s' else s
  end.

(** The text begins with a YouTube reference: an optional scheme and
    "www.", a host, and at least one byte of a video ID. *)
Definition startsYouTubeRef (t : string) : Prop :=
  exists pre host c rest,
    In pre urlPrefixes /\ In host youtubeHosts /\ idClass c = true /\
    t = pre +:+ host +:+ String c rest.

(** The body createPageHandler gives a new page. *)
Definition defaultBodyOf (name : string) : string :=
  "This is the new page for **" +:+ name +:+ "**".

(** The name without its underscores. *)
Definition dropUnderscores (name : string) : string :=
  keepChars (fun c => negb (Ascii.eqb c "_")) name.

(** What the page viewer shows for the page file name [s]. *)
Definition viewOf (fs : filesystem) (s : string) : Response * filesystem :=
  match ReadFile fs ("pages/" +:+ s +:+ ".txt") with
  | None => (HttpNotFound, fs)
  | Some body =>
      (RenderPage {| Title := s; Body := body;
                     YouTubeEmbed :=
                       match ReadFile fs ("pages/" +:+ s +:+ ".youtube.txt") with
                       | Some youtubeURLs => embedURLs_spec youtubeURLs
                       | None => []
                       end |}, fs)
  end.




(** The one tally file that youtubeVoteHandler reads and writes. *)
Definition voteFile : string := "pages/vote.votes.json".

(** The requests of a run of votes for a video, in the layout that the
    indices of the handler fit. *)
Definition shortVoteRequests (videoID : string) (ups : list bool)
    : list Request :=
  List.map (shortVoteRequest videoID) ups.

(** * Properties *)

(** ** The model on concrete inputs *)

Example extract_watch :
  extractYouTubeVideoInfo "see https://www.youtube.com/watch?v=dQw4w9WgXcQ&t=1" =
  ("https://www.youtube.com/embed/dQw4w9WgXcQ", "dQw4w9WgXcQ").
Proof. reflexivity. Qed.

Example extract_short : extractYouTubeVideoInfo "youtu.be/abc-12_3 x" =
  ("https://www.youtube.com/embed/abc-12_3", "abc-12_3").
Proof. reflexivity. Qed.

Example extract_none : extractYouTubeVideoInfo "not a url" = ("", "").
Proof. reflexivity. Qed.

Example extract_noid : extractYouTubeVideoInfo "https://youtu.be/" = ("", "").
Proof. reflexivity. Qed.

Example Clean_dots : Clean "pages/../../etc/./passwd" = "../etc/passwd".
Proof. reflexivity. Qed.

Example Clean_rooted : Clean "/a//b/../../../c/" = "/c".
Proof. reflexivity. Qed.

Example Base_traversal : Base "../../etc/passwd" = "passwd".
Proof. reflexivity. Qed.

Example Base_dotdot : Base "a/../" = "..".
Proof. reflexivity. Qed.

Example Base_slashes : Base "///" = "/".
Proof. reflexivity. Qed.

Example Join_pages : Join ["pages"; Base "///" +:+ ".txt"] = "pages/.txt".
Proof. reflexivity. Qed.

Example Split_vote_path :
  Split "/api/vote/mypage/abc123/upvote" "/" =
  [""; "api"; "vote"; "mypage"; "abc123"; "upvote"].
Proof. reflexivity. Qed.

Example deriveSlug_display_name :
  deriveSlug asciiMapLower "My New Page!" = "my-new-page".
Proof. reflexivity. Qed.

Example index_of_store :
  (indexHandler (request "GET" "/" None)
     (<["pages/b.txt" := File "x"]>
        (<["pages/a.youtube.txt" := File "y"]>
           (<["pages/a.txt" := File "z"]>
              (<["pages/sub" := Dir]> ∅))))).1 =
  RenderIndex ["a"; "a.youtube"; "b"].
Proof. vm_compute. reflexivity. Qed.

Example wrapInt_max : wrapInt (2 ^ 63 - 1 + 1) = (- 2 ^ 63)%Z.
Proof. reflexivity. Qed.

(** ** Bytes *)

Lemma byteval_inj (c d : ascii) : byteval c = byteval d -> c = d.
Proof.
  unfold byteval. intros H.
  rewrite <- (ascii_N_embedding c), <- (ascii_N_embedding d). now rewrite H.
Qed.

Lemma ascii_eqb_byteval (c d : ascii) :
  Ascii.eqb c d = true <-> byteval c = byteval d.
Proof.
  rewrite Ascii.eqb_eq. split; [now intros -> | apply byteval_inj].
Qed.

Lemma inRange_spec (lo hi c : ascii) :
  inRange lo hi c = true <->
  (byteval lo <= byteval c)%N /\ (byteval c <= byteval hi)%N.
Proof.
  unfold inRange. now rewrite andb_true_iff, !N.leb_le.
Qed.

Lemma nameClass_spec (c : ascii) : nameClass c = true <-> allowedNameByte c.
Proof.
  unfold nameClass, allowedNameByte, isLower, isDigit.
  rewrite !orb_true_iff, !inRange_spec, !ascii_eqb_byteval.
  change (byteval "a") with 97%N. change (byteval "z") with 122%N.
  change (byteval "0") with 48%N. change (byteval "9") with 57%N.
  change (byteval "_") with 95%N. change (byteval "-") with 45%N.
  tauto.
Qed.

(** ** Strings *)

Lemma app_String (c : ascii) (s t : string) :
  String c s +:+ t = String c (s +:+ t).
Proof. reflexivity. Qed.

Lemma app_empty_l (t : string) : "" +:+ t = t.
Proof. reflexivity. Qed.

Lemma app_empty_r (s : string) : s +:+ "" = s.
Proof. induction s as [|c s IH]; [reflexivity|]. now rewrite app_String, IH. Qed.

Lemma app_assoc_str (s t u : string) : (s +:+ t) +:+ u = s +:+ (t +:+ u).
Proof.
  induction s as [|c s IH]; [reflexivity|]. now rewrite !app_String, IH.
Qed.

Lemma length_app_str (s t : string) :
  String.length (s +:+ t) = (String.length s + String.length t)%nat.
Proof.
  induction s as [|c s IH]; [reflexivity|]. rewrite app_String. simpl.
  now rewrite IH.
Qed.

Lemma eqb_empty (s : string) : String.eqb s "" = true <-> s = "".
Proof. apply String.eqb_eq. Qed.

Lemma anyChar_In (p : ascii -> bool) (s : string) :
  anyChar p s = true <-> exists c, In c (chars s) /\ p c = true.
Proof.
  induction s as [|a s IH]; simpl.
  - split; [discriminate | intros (c & [] & _)].
  - rewrite orb_true_iff, IH. split.
    + intros [H | (c & Hc & Hp)]; [exists a | exists c]; auto.
    + intros (c & [-> | Hc] & Hp); [now left | right; now exists c].
Qed.

Lemma allChars_In (p : ascii -> bool) (s : string) :
  allChars p s = true <-> forall c, In c (chars s) -> p c = true.
Proof.
  induction s as [|a s IH]; simpl.
  - split; [intros _ c [] | reflexivity].
  - rewrite andb_true_iff, IH. split.
    + intros [Ha Hs] c [<- | Hc]; auto.
    + intros H. split; [apply H; now left | intros c Hc; apply H; now right].
Qed.

Lemma anyChar_negb (p : ascii -> bool) (s : string) :
  anyChar (fun c => negb (p c)) s = negb (allChars p s).
Proof.
  induction s as [|a s IH]; simpl; [reflexivity|].
  rewrite IH. now destruct (p a).
Qed.

Lemma allChars_app (p : ascii -> bool) (s t : string) :
  allChars p (s +:+ t) = allChars p s && allChars p t.
Proof.
  induction s as [|a s IH]; [reflexivity|].
  rewrite app_String. simpl. now rewrite IH, andb_assoc.
Qed.

Lemma anyChar_app (p : ascii -> bool) (s t : string) :
  anyChar p (s +:+ t) = anyChar p s || anyChar p t.
Proof.
  induction s as [|a s IH]; [reflexivity|].
  rewrite app_String. simpl. now rewrite IH, orb_assoc.
Qed.

Lemma allChars_impl (p q : ascii -> bool) (s : string) :
  (forall c, p c = true -> q c = true) ->
  allChars p s = true -> allChars q s = true.
Proof.
  intros Hpq. rewrite !allChars_In. auto.
Qed.

Lemma allChars_mapChars (p : ascii -> bool) (f : ascii -> ascii) (s : string) :
  allChars p (mapChars f s) = allChars (fun c => p (f c)) s.
Proof. induction s as [|a s IH]; simpl; [reflexivity | now rewrite IH]. Qed.

Lemma mapChars_id (f : ascii -> ascii) (p : ascii -> bool) (s : string) :
  (forall c, p c = true -> f c = c) ->
  allChars p s = true -> mapChars f s = s.
Proof.
  intros Hf. induction s as [|a s IH]; simpl; [reflexivity|].
  rewrite andb_true_iff. intros [Ha Hs]. now rewrite (Hf a Ha), IH.
Qed.

Lemma keepChars_all (p : ascii -> bool) (s : string) :
  allChars p (keepChars p s) = true.
Proof.
  induction s as [|a s IH]; simpl; [reflexivity|].
  destruct (p a) eqn:Ha; simpl; [now rewrite Ha|assumption].
Qed.

Lemma keepChars_id (p : ascii -> bool) (s : string) :
  allChars p s = true -> keepChars p s = s.
Proof.
  induction s as [|a s IH]; simpl; [reflexivity|].
  rewrite andb_true_iff. intros [Ha Hs]. now rewrite Ha, IH.
Qed.

Lemma keepChars_preserves (p q : ascii -> bool) (s : string) :
  allChars q s = true -> allChars q (keepChars p s) = true.
Proof.
  induction s as [|a s IH]; simpl; [reflexivity|].
  rewrite andb_true_iff. intros [Ha Hs].
  destruct (p a); simpl; [rewrite Ha|]; auto.
Qed.

(** ** Name validation (charchecker) *)

Lemma charchecker_None (name : string) :
  charchecker name = None <-> allChars nameClass name = true.
Proof.
  unfold charchecker, illegalCharPattern_MatchString.
  rewrite anyChar_negb. destruct (allChars nameClass name); simpl.
  - split; reflexivity.
  - split; discriminate.
Qed.

(** C6: charchecker returns an error if and only if the name has a byte
    outside a-z, 0-9, underscore and hyphen; it returns nil exactly for
    the names made of those bytes only. *)
Theorem charchecker_invalid_iff (name : string) :
  (charchecker name <> None <->
     exists c, In c (chars name) /\ ~ allowedNameByte c) /\
  (charchecker name = None <->
     forall c, In c (chars name) -> allowedNameByte c).
Proof.
  assert (Hnone : charchecker name = None <->
                  forall c, In c (chars name) -> allowedNameByte c).
  { rewrite charchecker_None, allChars_In.
    split; intros H c Hc; apply nameClass_spec; auto. }
  split; [|exact Hnone].
  rewrite charchecker_None. split.
  - intros Hne.
    assert (Hany : anyChar (fun c => negb (nameClass c)) name = true).
    { rewrite anyChar_negb. now destruct (allChars nameClass name). }
    apply anyChar_In in Hany as (c & Hc & Hp). exists c. split; [exact Hc|].
    rewrite <- nameClass_spec. now destruct (nameClass c).
  - intros (c & Hc & Hp) Hall. apply Hp, nameClass_spec.
    rewrite allChars_In in Hall. auto.
Qed.

(** ** Slug derivation *)

Lemma lowerByte_not_upper (c : ascii) : isUpper (lowerByte c) = false.
Proof. destruct c as [[] [] [] [] [] [] [] []]; reflexivity. Qed.

Lemma slugByte_props (c : ascii) :
  slugByte c = true ->
  isASCIIbyte c = true /\ isUpper c = false /\ slugClass c = true /\
  Ascii.eqb c " " = false.
Proof. destruct c as [[] [] [] [] [] [] [] []]; vm_compute; intuition congruence. Qed.

Lemma slugClass_lower (c : ascii) :
  slugClass c = true -> isUpper c = false -> slugByte c = true.
Proof. destruct c as [[] [] [] [] [] [] [] []]; vm_compute; intuition congruence. Qed.

Lemma noUpper_all (s : string) :
  anyChar isUpper s = false <-> allChars (fun c => negb (isUpper c)) s = true.
Proof.
  induction s as [|a s IH]; simpl; [tauto|].
  rewrite orb_false_iff, andb_true_iff, IH, negb_true_iff. tauto.
Qed.

Section SlugProperties.

Variable mapLower : string -> string.

(** unicode.ToLower never yields an upper-case ASCII letter. *)
Hypothesis mapLower_no_upper :
    forall s, anyChar isUpper (mapLower s) = false.

Lemma ToLower_no_upper (s : string) :
    anyChar isUpper (ToLower mapLower s) = false.
  Proof.
    unfold ToLower. destruct (allChars isASCIIbyte s); [|apply mapLower_no_upper].
    destruct (anyChar isUpper s) eqn:Hup; simpl; [|exact Hup].
    apply noUpper_all. rewrite allChars_mapChars.
    apply allChars_In. intros c _. now rewrite lowerByte_not_upper.
  Qed.

Lemma deriveSlug_slugBytes (name : string) :
    allChars slugByte (deriveSlug mapLower name) = true /\
    deriveSlug mapLower name <> "".
  Proof.
    unfold deriveSlug, slugRegex_ReplaceAllString_empty.
    set (t := ReplaceAll (ToLower mapLower name) " " "-").
    destruct (String.eqb (keepChars slugClass t) "") eqn:He.
    - split; [reflexivity | discriminate].
    - split; [|intros H; rewrite H in He; discriminate].
      assert (Hlow : allChars (fun c => negb (isUpper c)) t = true).
      { unfold t, ReplaceAll. rewrite allChars_mapChars.
        pose proof (ToLower_no_upper name) as Hn. apply noUpper_all in Hn.
        revert Hn. apply allChars_impl. intros c Hc.
        destruct (Ascii.eqb c " "); [reflexivity | exact Hc]. }
      apply (keepChars_preserves slugClass) in Hlow.
      pose proof (keepChars_all slugClass t) as Hcls.
      rewrite allChars_In in *. intros c Hc.
      apply slugClass_lower; [now apply Hcls|].
      apply negb_true_iff. now apply Hlow.
  Qed.

Lemma deriveSlug_fixed (s : string) :
    allChars slugByte s = true -> s <> "" -> deriveSlug mapLower s = s.
  Proof.
    intros Hall Hne. unfold deriveSlug, slugRegex_ReplaceAllString_empty, ToLower.
    assert (Hascii : allChars isASCIIbyte s = true).
    { revert Hall. apply allChars_impl. intros c Hc. now apply slugByte_props. }
    assert (Hup : anyChar isUpper s = false).
    { apply noUpper_all. revert Hall. apply allChars_impl. intros c Hc.
      apply negb_true_iff. now apply slugByte_props. }
    rewrite Hascii, Hup. simpl.
    assert (Hrep : ReplaceAll s " " "-" = s).
    { unfold ReplaceAll. apply (mapChars_id _ slugByte); [|exact Hall].
      intros c Hc. apply slugByte_props in Hc as (_ & _ & _ & ->). reflexivity. }
    rewrite Hrep.
    assert (Hkeep : keepChars slugClass s = s).
    { apply keepChars_id. revert Hall. apply allChars_impl.
      intros c Hc. now apply slugByte_props. }
    rewrite Hkeep. destruct (String.eqb s "") eqn:He; [|reflexivity].
    apply String.eqb_eq in He. contradiction.
  Qed.

(** C9: slug derivation is idempotent. *)
Theorem deriveSlug_idempotent (x : string) :
    deriveSlug mapLower (deriveSlug mapLower x) = deriveSlug mapLower x.
  Proof.
    destruct (deriveSlug_slugBytes x) as [Hall Hne].
    now apply deriveSlug_fixed.
  Qed.

End SlugProperties.

Lemma asciiMapLower_no_upper (s : string) :
  anyChar isUpper (asciiMapLower s) = false.
Proof.
  apply noUpper_all. unfold asciiMapLower. rewrite allChars_mapChars.
  apply allChars_In. intros c _. now rewrite lowerByte_not_upper.
Qed.

Lemma deriveSlug_idempotent_witness :
  (forall s, anyChar isUpper (asciiMapLower s) = false) /\
  deriveSlug asciiMapLower (deriveSlug asciiMapLower "My New Page!") =
  deriveSlug asciiMapLower "My New Page!".
Proof.
  split; [exact asciiMapLower_no_upper|].
  apply (deriveSlug_idempotent asciiMapLower asciiMapLower_no_upper).
Defined.

(** ** The matcher against the language of the expression *)

Lemma stripPrefix_app (p s : string) : stripPrefix p (p +:+ s) = Some s.
Proof.
  induction p as [|a p IH]; [reflexivity|].
  rewrite app_String. simpl. now rewrite Ascii.eqb_refl.
Qed.

Lemma stripPrefix_Some (p s r : string) :
  stripPrefix p s = Some r -> s = p +:+ r.
Proof.
  revert s. induction p as [|a p IH]; intros s; simpl.
  - now intros [= ->].
  - destruct s as [|b s]; [discriminate|].
    destruct (Ascii.eqb a b) eqn:E; [|discriminate].
    apply Ascii.eqb_eq in E as ->. intros H. rewrite app_String.
    f_equal. now apply IH.
Qed.

Lemma substring_all (s : string) : substring 0 (String.length s) s = s.
Proof. induction s as [|a s IH]; simpl; [reflexivity | now rewrite IH]. Qed.

Lemma substring_prefix (w rest : string) :
  substring 0 (String.length w) (w +:+ rest) = w.
Proof.
  induction w as [|a w IH].
  - simpl. now destruct rest.
  - rewrite app_String. simpl. now rewrite IH.
Qed.

Lemma substring_suffix (w rest : string) :
  substring (String.length w) (String.length rest) (w +:+ rest) = rest.
Proof.
  induction w as [|a w IH].
  - rewrite app_empty_l. apply substring_all.
  - rewrite app_String. simpl. exact IH.
Qed.

Lemma consumed_app (w rest : string) : consumed (w +:+ rest) rest = w.
Proof.
  unfold consumed. rewrite length_app_str.
  replace (String.length w + String.length rest - String.length rest)%nat
    with (String.length w) by lia.
  apply substring_prefix.
Qed.

Lemma consumed_all (s : string) : consumed s "" = s.
Proof.
  rewrite <- (app_empty_r s) at 1. apply consumed_app.
Qed.

Lemma plusFrom_sound {A} (p : ascii -> bool) (s : string)
    (k : string -> option A) (x : A) :
  plusFrom p s k = Some x ->
  exists w rest, s = w +:+ rest /\ w <> "" /\ allChars p w = true /\
                 k rest = Some x.
Proof.
  revert x. induction s as [|c s IH]; intros x; simpl; [discriminate|].
  destruct (p c) eqn:Hc; [|discriminate].
  destruct (plusFrom p s k) as [y|] eqn:Hrec.
  - intros [= ->]. destruct (IH x eq_refl) as (w & rest & -> & _ & Hw & Hk).
    exists (String c w), rest. rewrite app_String. simpl. rewrite Hc, Hw.
    repeat split; auto; discriminate.
  - intros Hk. exists (String c ""), s. simpl. rewrite Hc.
    repeat split; auto; discriminate.
Qed.

(** A successful match consumed a text of the language and handed what
    follows it, with the captures, to the continuation. *)
Lemma reMatch_sound {A} (r : regex) :
  forall (s : string) (caps : list string)
         (k : string -> list string -> option A) (x : A),
    reMatch r s caps k = Some x ->
    exists w rest cs,
      s = w +:+ rest /\ matches r w cs /\ k rest (caps ++ cs)%list = Some x.
Proof.
  induction r as [l|p|r1 IH1 r2 IH2|r1 IH1 r2 IH2|r1 IH1|r1 IH1];
    intros s caps k x; simpl.
  - destruct (stripPrefix l s) as [rest|] eqn:Hl; [|discriminate].
    intros Hk. apply stripPrefix_Some in Hl. exists l, rest, [].
    rewrite app_nil_r. repeat split; auto. constructor.
  - intros H. apply plusFrom_sound in H as (w & rest & -> & Hne & Hall & Hk).
    exists w, rest, []. rewrite app_nil_r. repeat split; auto.
    now constructor.
  - intros H. apply IH1 in H as (w1 & rest1 & cs1 & -> & Hm1 & H).
    apply IH2 in H as (w2 & rest2 & cs2 & -> & Hm2 & H).
    exists (w1 +:+ w2), rest2, (cs1 ++ cs2)%list.
    rewrite app_assoc_str, app_assoc. repeat split; auto. now constructor.
  - destruct (reMatch r1 s caps k) as [y|] eqn:H1.
    + intros [= ->]. apply IH1 in H1 as (w & rest & cs & -> & Hm & H).
      exists w, rest, cs. repeat split; auto. now apply matches_Alt_l.
    + intros H. apply IH2 in H as (w & rest & cs & -> & Hm & H).
      exists w, rest, cs. repeat split; auto. now apply matches_Alt_r.
  - destruct (reMatch r1 s caps k) as [y|] eqn:H1.
    + intros [= ->]. apply IH1 in H1 as (w & rest & cs & -> & Hm & H).
      exists w, rest, cs. repeat split; auto. now apply matches_Opt_some.
    + intros H. exists "", s, []. rewrite app_nil_r, app_empty_l.
      repeat split; auto. apply matches_Opt_none.
  - intros H. apply IH1 in H as (w & rest & cs & -> & Hm & H).
    rewrite consumed_app in H.
    exists w, rest, (cs ++ [w])%list. rewrite app_assoc.
    repeat split; auto. now constructor.
Qed.

Lemma matchAt_sound (r : regex) (s : string) (m : list string) :
  matchAt r s = Some m ->
  exists w rest cs, s = w +:+ rest /\ matches r w cs /\ m = w :: cs.
Proof.
  unfold matchAt. intros H.
  apply reMatch_sound in H as (w & rest & cs & -> & Hm & H).
  rewrite consumed_app in H. simpl in H. injection H as <-.
  now exists w, rest, cs.
Qed.

Lemma plusFrom_complete {A} (p : ascii -> bool) (w rest : string)
    (k : string -> option A) :
  w <> "" -> allChars p w = true -> k rest <> None ->
  plusFrom p (w +:+ rest) k <> None.
Proof.
  intros Hne Hall Hk. induction w as [|c w IH]; [contradiction|].
  rewrite app_String. simpl in *. apply andb_true_iff in Hall as [Hc Hall].
  rewrite Hc. destruct w as [|d w].
  - rewrite app_empty_l. now destruct (plusFrom p rest k).
  - destruct (plusFrom p (String d w +:+ rest) k) eqn:Hrec; [discriminate|].
    exfalso. apply IH; [discriminate | exact Hall | reflexivity].
Qed.

(** The matcher finds a match whenever the text starts with one of the
    language that the continuation accepts with any captures. *)
Lemma reMatch_complete {A} (r : regex) (w : string) (cs : list string) :
  matches r w cs ->
  forall (rest : string) (caps : list string)
         (k : string -> list string -> option A),
    (forall caps', k rest caps' <> None) ->
    reMatch r (w +:+ rest) caps k <> None.
Proof.
  induction 1 as [l|p w Hne Hall|r1 r2 w1 w2 cs1 cs2 _ IH1 _ IH2
                 |r1 r2 w cs _ IH|r1 r2 w cs _ IH|r1 w cs _ IH|r1
                 |r1 w cs _ IH]; intros rest caps k Hk; simpl.
  - rewrite stripPrefix_app. apply Hk.
  - apply plusFrom_complete; auto.
  - rewrite app_assoc_str. apply IH1. intros caps'. now apply IH2.
  - destruct (reMatch r1 (w +:+ rest) caps k) eqn:H1; [discriminate|].
    exfalso. revert H1. now apply IH.
  - destruct (reMatch r1 (w +:+ rest) caps k); [discriminate|]. now apply IH.
  - destruct (reMatch r1 (w +:+ rest) caps k) eqn:H1; [discriminate|].
    exfalso. revert H1. now apply IH.
  - rewrite app_empty_l.
    destruct (reMatch r1 rest caps k); [discriminate | apply Hk].
  - apply IH. intros caps'. apply Hk.
Qed.

(** FindStringSubmatch answers nil when no place of the text matches, and
    otherwise the match at some place of the text. *)
Lemma FindStringSubmatch_spec (r : regex) (s : string) :
  (FindStringSubmatch r s = [] /\
   forall before t, s = before +:+ t -> matchAt r t = None)
  \/ (exists before t, s = before +:+ t /\
        matchAt r t = Some (FindStringSubmatch r s)).
Proof.
  induction s as [|c s IH]; simpl.
  - destruct (matchAt r "") as [m|] eqn:Hm.
    + right. exists "", "". now rewrite Hm.
    + left. split; [reflexivity|]. intros before t Heq.
      destruct before; [|discriminate]. rewrite app_empty_l in Heq.
      now subst t.
  - destruct (matchAt r (String c s)) as [m|] eqn:Hm.
    + right. exists "", (String c s). now rewrite Hm.
    + destruct IH as [[Hnil Hall] | (before & t & -> & Ht)].
      * left. split; [exact Hnil|]. intros before t Heq.
        destruct before as [|b before].
        -- rewrite app_empty_l in Heq. now subst t.
        -- rewrite app_String in Heq. injection Heq as _ Heq.
           now apply (Hall before).
      * right. exists (String c before), t. now rewrite app_String.
Qed.

Lemma FindStringSubmatch_here (r : regex) (s : string) (m : list string) :
  matchAt r s = Some m -> FindStringSubmatch r s = m.
Proof. intros H. destruct s; simpl; now rewrite H. Qed.

(** ** The YouTube link extractor *)

Ltac inv_matches :=
  repeat match goal with
  | H : matches (Lit _) _ _ |- _ => inversion H; subst; clear H
  | H : matches (PlusClass _) _ _ |- _ => inversion H; subst; clear H
  | H : matches (Seq _ _) _ _ |- _ => inversion H; subst; clear H
  | H : matches (Alt _ _) _ _ |- _ => inversion H; subst; clear H
  | H : matches (Opt _) _ _ |- _ => inversion H; subst; clear H
  | H : matches (Group _) _ _ |- _ => inversion H; subst; clear H
  end.

Ltac norm_app := rewrite ?app_assoc_str, ?app_String, ?app_empty_l.

Ltac try_shape pre host id :=
  exists pre, host, id;
  split; [simpl; tauto|]; split; [simpl; tauto|];
  split; [assumption|]; split; [assumption|];
  split; [norm_app; reflexivity | reflexivity].

Ltac try_host pre id :=
  first [ try_shape pre "youtube.com/watch?v=" id
        | try_shape pre "youtube.com/embed/" id
        | try_shape pre "youtu.be/" id ].

Ltac pick_shape id :=
  first [ try_host "" id | try_host "www." id
        | try_host "http://" id | try_host "http://www." id
        | try_host "https://" id | try_host "https://www." id ].

(** The texts of the language of youtubeRegex. *)
Lemma matches_youtubeRegex_inv (w : string) (cs : list string) :
  matches youtubeRegex w cs ->
  exists pre host id,
    In pre urlPrefixes /\ In host youtubeHosts /\
    id <> "" /\ allChars idClass id = true /\
    w = pre +:+ host +:+ id /\ cs = [id].
Proof.
  unfold youtubeRegex. intros H. inv_matches;
    match goal with Hne : ?id <> "" |- _ => pick_shape id end.
Qed.

Lemma plusFrom_stop {A} (p : ascii -> bool) (rest : string)
    (k : string -> option A) :
  match rest with "" => true | String c _ => negb (p c) end = true ->
  plusFrom p rest k = None.
Proof.
  destruct rest as [|c rest]; simpl; [reflexivity|].
  now intros ->%negb_true_iff.
Qed.

(** The greedy [+] takes the whole run when the continuation accepts. *)
Lemma plusFrom_run {A} (p : ascii -> bool) (id rest : string)
    (k : string -> option A) (x : A) :
  id <> "" -> allChars p id = true ->
  match rest with "" => true | String c _ => negb (p c) end = true ->
  k rest = Some x ->
  plusFrom p (id +:+ rest) k = Some x.
Proof.
  intros Hne Hall Hstop Hk. induction id as [|c id IH]; [contradiction|].
  rewrite app_String. simpl in *. apply andb_true_iff in Hall as [Hc Hall].
  rewrite Hc. destruct id as [|d id].
  - rewrite app_empty_l, (plusFrom_stop p rest k Hstop). exact Hk.
  - rewrite IH; [reflexivity | discriminate | exact Hall].
Qed.

Lemma plusFrom_total {A} (p : ascii -> bool) (c : ascii) (rest : string)
    (k : string -> option A) :
  p c = true -> (forall r, k r <> None) ->
  plusFrom p (String c rest) k <> None.
Proof.
  intros Hc Hk. simpl. rewrite Hc.
  destruct (plusFrom p rest k); [discriminate | apply Hk].
Qed.

(** Whatever stands before it, a supported URL shape leads the matcher to
    the video ID: when the ID part succeeds, so does the whole match, with
    the same result. *)
Lemma reMatch_youtube_shape {A} (pre host tail : string)
    (caps : list string) (k : string -> list string -> option A) (x : A) :
  In pre urlPrefixes -> In host youtubeHosts ->
  plusFrom idClass tail
    (fun rest => k rest (caps ++ [consumed tail rest])%list) = Some x ->
  reMatch youtubeRegex (pre +:+ host +:+ tail) caps k = Some x.
Proof.
  intros Hpre Hhost Hplus. unfold youtubeRegex.
  simpl in Hpre, Hhost.
  destruct Hpre as [<-|[<-|[<-|[<-|[<-|[<-|[]]]]]]];
    destruct Hhost as [<-|[<-|[<-|[]]]];
    norm_app; simpl; rewrite Hplus; reflexivity.
Qed.

Lemma matchAt_youtube_shape (pre host id rest : string) :
  In pre urlPrefixes -> In host youtubeHosts ->
  id <> "" -> allChars idClass id = true -> idStop rest = true ->
  matchAt youtubeRegex (pre +:+ host +:+ id +:+ rest) =
  Some [pre +:+ host +:+ id; id].
Proof.
  intros Hpre Hhost Hne Hall Hstop. unfold matchAt.
  apply reMatch_youtube_shape; [assumption..|].
  apply plusFrom_run; [assumption..|]. simpl.
  rewrite consumed_app.
  replace (pre +:+ host +:+ id +:+ rest)
    with ((pre +:+ host +:+ id) +:+ rest) by now rewrite !app_assoc_str.
  now rewrite consumed_app.
Qed.

Lemma matchAt_youtube_host (host : string) (c : ascii) (rest : string) :
  In host youtubeHosts -> idClass c = true ->
  matchAt youtubeRegex (host +:+ String c rest) <> None.
Proof.
  intros Hhost Hc. unfold matchAt.
  destruct (plusFrom idClass (String c rest)
              (fun r => Some (consumed (host +:+ String c rest) r
                                :: ([] ++ [consumed (String c rest) r])%list)))
    as [x|] eqn:Hplus.
  - rewrite <- (app_empty_l (host +:+ String c rest)).
    rewrite (reMatch_youtube_shape "" host (String c rest) [] _ x);
      [discriminate | simpl; tauto | assumption |].
    rewrite app_empty_l. exact Hplus.
  - exfalso. revert Hplus. apply plusFrom_total; [assumption|discriminate].
Qed.

(** What FindStringSubmatch can answer for youtubeRegex. *)
Lemma youtube_submatch (text : string) :
  (FindStringSubmatch youtubeRegex text = [] /\ ~ hasYouTubeRef text) \/
  (exists w id, id <> "" /\ allChars idClass id = true /\
                FindStringSubmatch youtubeRegex text = [w; id] /\
                hasYouTubeRef text).
Proof.
  destruct (FindStringSubmatch_spec youtubeRegex text)
    as [[Hnil Hall] | (before & t & -> & Ht)].
  - left. split; [exact Hnil|].
    intros (before & host & c & rest & Hhost & Hc & ->).
    apply (matchAt_youtube_host host c rest Hhost Hc).
    now apply (Hall before).
  - right. apply matchAt_sound in Ht as (w & rest & cs & -> & Hm & Heq).
    apply matches_youtubeRegex_inv in Hm
      as (pre & host & id & Hpre & Hhost & Hne & Hid & -> & ->).
    exists (pre +:+ host +:+ id), id. repeat split; auto.
    destruct id as [|c id]; [contradiction|].
    simpl in Hid. apply andb_true_iff in Hid as [Hc _].
    exists (before +:+ pre), host, c, (id +:+ rest).
    repeat split; auto. now rewrite !app_assoc_str, ?app_String.
Qed.

Lemma embedPrefix_nonempty (id : string) : embedPrefix +:+ id <> "".
Proof. unfold embedPrefix. rewrite app_String. discriminate. Qed.

(** The two results of the extractor. *)
Lemma extractYouTubeVideoInfo_cases (text : string) :
  (extractYouTubeVideoInfo text = ("", "") /\ ~ hasYouTubeRef text) \/
  (exists id, id <> "" /\ allChars idClass id = true /\
              extractYouTubeVideoInfo text = (embedPrefix +:+ id, id) /\
              hasYouTubeRef text).
Proof.
  unfold extractYouTubeVideoInfo.
  destruct (youtube_submatch text) as [[-> Hno] | (w & id & Hne & Hid & -> & Hyes)].
  - now left.
  - right. exists id. simpl. auto.
Qed.

Lemma processYouTubeURL_fst (text : string) :
  processYouTubeURL text = fst (extractYouTubeVideoInfo text).
Proof.
  unfold processYouTubeURL, extractYouTubeVideoInfo.
  now destruct (1 <? length (FindStringSubmatch youtubeRegex text))%nat.
Qed.

Lemma extract_empty_iff (text : string) :
  fst (extractYouTubeVideoInfo text) = "" <-> ~ hasYouTubeRef text.
Proof.
  destruct (extractYouTubeVideoInfo_cases text)
    as [[-> Hno] | (id & Hne & Hid & -> & Hyes)]; simpl.
  - tauto.
  - split; [intros H; now apply embedPrefix_nonempty in H | tauto].
Qed.

(** C7: every supported URL shape that carries a video ID gives the
    canonical embed URL of that ID, the same bytes for all shapes; a text
    without a YouTube reference gives two empty strings. *)
Theorem extract_canonical_embed :
  (forall pre host id,
      In pre urlPrefixes -> In host youtubeHosts ->
      id <> "" -> allChars idClass id = true ->
      extractYouTubeVideoInfo (pre +:+ host +:+ id) =
      ("https://www.youtube.com/embed/" +:+ id, id)) /\
  (forall text,
      ~ hasYouTubeRef text <-> extractYouTubeVideoInfo text = ("", "")).
Proof.
  split.
  - intros pre host id Hpre Hhost Hne Hid.
    unfold extractYouTubeVideoInfo.
    rewrite (FindStringSubmatch_here _ _ [pre +:+ host +:+ id; id]).
    + reflexivity.
    + rewrite <- (app_empty_r id) at 1.
      now apply matchAt_youtube_shape.
  - intros text. rewrite <- extract_empty_iff.
    destruct (extractYouTubeVideoInfo_cases text)
      as [[-> Hno] | (id & Hne & Hid & -> & Hyes)]; simpl.
    + tauto.
    + split; [intros H; now apply embedPrefix_nonempty in H|].
      intros H. apply (f_equal fst) in H. simpl in H.
      now apply embedPrefix_nonempty in H.
Qed.

Lemma extract_canonical_embed_witness :
  extractYouTubeVideoInfo ("https://" +:+ "youtu.be/" +:+ "abc123") =
    ("https://www.youtube.com/embed/" +:+ "abc123", "abc123") /\
  extractYouTubeVideoInfo ("www." +:+ "youtube.com/watch?v=" +:+ "abc123") =
    ("https://www.youtube.com/embed/" +:+ "abc123", "abc123") /\
  ~ hasYouTubeRef "not a url".
Proof.
  destruct extract_canonical_embed as [Hshape Hnone].
  split; [|split].
  - apply Hshape; [simpl; tauto | simpl; tauto | discriminate | reflexivity].
  - apply Hshape; [simpl; tauto | simpl; tauto | discriminate | reflexivity].
  - apply Hnone. reflexivity.
Defined.

(** ** Paths *)

Lemma Split_no_sep (s : string) (sep : ascii) :
  anyChar (fun c => Ascii.eqb c sep) s = false -> Split s sep = [s].
Proof.
  induction s as [|c s IH]; simpl; [reflexivity|].
  intros [Hc Hs]%orb_false_iff. now rewrite Hc, IH.
Qed.

Lemma Split_app_sep (a b : string) (sep : ascii) :
  anyChar (fun c => Ascii.eqb c sep) a = false ->
  Split (a +:+ String sep b) sep = a :: Split b sep.
Proof.
  induction a as [|c a IH]; intros Ha.
  - rewrite app_empty_l. simpl. now rewrite Ascii.eqb_refl.
  - simpl in Ha. apply orb_false_iff in Ha as [Hc Ha].
    rewrite app_String. simpl. now rewrite Hc, IH.
Qed.

Lemma Split_elements (s : string) (sep : ascii) :
  Forall (fun e => anyChar (fun c => Ascii.eqb c sep) e = false) (Split s sep).
Proof.
  induction s as [|c s IH]; simpl.
  - now constructor.
  - destruct (Ascii.eqb c sep) eqn:Hc.
    + now constructor.
    + destruct (Split s sep) as [|piece rest]; constructor.
      * simpl. now rewrite Hc.
      * constructor.
      * simpl. rewrite Hc. now inversion IH.
      * now inversion IH.
Qed.

Lemma last_Forall {A} (P : A -> Prop) (l : list A) (d : A) :
  Forall P l -> P d -> P (List.last l d).
Proof.
  intros Hl Hd. induction Hl as [|x l Hx Hl IH]; simpl; [exact Hd|].
  destruct l; [exact Hx | exact IH].
Qed.

(** filepath.Base answers ".", "/" or a non-empty element without slash. *)
Lemma Base_cases (path : string) :
  Base path = "." \/ Base path = "/" \/
  (Base path <> "" /\ anyChar isSlash (Base path) = false).
Proof.
  unfold Base. destruct (String.eqb path ""); [now left|].
  set (e := List.last (Split (trimTrailingSlashes path) "/") "").
  destruct (String.eqb e "") eqn:He; [right; now left|].
  right; right. split.
  - intros H. rewrite H in He. discriminate.
  - subst e. apply (last_Forall (fun e => anyChar isSlash e = false));
      [apply Split_elements | reflexivity].
Qed.

(** Joining "pages" and a proper file name only puts a slash between. *)
Lemma Join_pages_name (name : string) :
  anyChar isSlash name = false ->
  name <> "" -> name <> "." -> name <> ".." ->
  Join ["pages"; name] = "pages/" +:+ name.
Proof.
  intros Hslash Hne Hdot Hdd.
  change (Join ["pages"; name]) with (Clean ("pages" +:+ "/" +:+ name)).
  unfold Clean. norm_app. simpl String.eqb. cbv iota. simpl isSlash. cbv iota.
  change (String "p" (String "a" (String "g" (String "e" (String "s"
            (String "/" name))))))
    with ("pages" +:+ String "/" name).
  rewrite Split_app_sep by reflexivity.
  rewrite (Split_no_sep name "/" Hslash).
  assert (Hstep : cleanStep false ["pages"] name = [name; "pages"]).
  { unfold cleanStep.
    apply String.eqb_neq in Hne, Hdot, Hdd. now rewrite Hne, Hdot, Hdd. }
  simpl fold_left. change (cleanStep false [] "pages") with ["pages"].
  rewrite Hstep. reflexivity.
Qed.

Lemma directlyInPages_intro (name : string) :
  anyChar isSlash name = false ->
  name <> "" -> name <> "." -> name <> ".." ->
  directlyInPages ("pages/" +:+ name).
Proof.
  intros Hslash Hne Hdot Hdd. exists name. repeat split; auto.
  change ("pages/" +:+ name) with ("pages" +:+ String "/" name).
  rewrite Split_app_sep by reflexivity. now rewrite (Split_no_sep name "/").
Qed.

Lemma suffixed_name (e ext : string) :
  (2 <= String.length ext)%nat -> e <> "" ->
  e +:+ ext <> "" /\ e +:+ ext <> "." /\ e +:+ ext <> "..".
Proof.
  intros Hext He.
  assert (Hlen : (3 <= String.length (e +:+ ext))%nat).
  { rewrite length_app_str. destruct e; [contradiction|]. simpl. lia. }
  repeat split; intros H; rewrite H in Hlen; simpl in Hlen; lia.
Qed.

(** The file for a slug and an extension lies directly in "pages". *)
Lemma Join_pages_Base (slug ext : string) :
  (2 <= String.length ext)%nat -> anyChar isSlash ext = false ->
  ext <> ".." ->
  directlyInPages (Join ["pages"; Base slug +:+ ext]).
Proof.
  intros Hlen Hext Hdot.
  assert (Hdot1 : ext <> ".") by (intros ->; simpl in Hlen; lia).
  assert (Hext0 : ext <> "") by (intros ->; simpl in Hlen; lia).
  destruct (Base_cases slug) as [-> | [-> | [Hne Hslash]]].
  - rewrite Join_pages_name.
    + apply directlyInPages_intro; try (apply suffixed_name; [lia|discriminate]).
      now rewrite anyChar_app, Hext.
    + now rewrite anyChar_app, Hext.
    + apply suffixed_name; [lia|discriminate].
    + apply suffixed_name; [lia|discriminate].
    + apply suffixed_name; [lia|discriminate].
  - assert (HJ : Join ["pages"; "/" +:+ ext] = "pages/" +:+ ext).
    { change (Join ["pages"; "/" +:+ ext])
        with (Clean ("pages" +:+ "/" +:+ "/" +:+ ext)).
      unfold Clean. norm_app. simpl String.eqb. cbv iota.
      simpl isSlash. cbv iota.
      change (String "p" (String "a" (String "g" (String "e" (String "s"
                (String "/" (String "/" ext)))))))
        with ("pages" +:+ String "/" ("" +:+ String "/" ext)).
      rewrite !Split_app_sep by reflexivity.
      rewrite (Split_no_sep ext "/" Hext).
      assert (Hstep : cleanStep false ["pages"] ext = [ext; "pages"]).
      { unfold cleanStep.
        apply String.eqb_neq in Hext0, Hdot1, Hdot.
        now rewrite Hext0, Hdot1, Hdot. }
      simpl fold_left. change (cleanStep false [] "pages") with ["pages"].
      change (cleanStep false ["pages"] "") with ["pages"].
      rewrite Hstep. reflexivity. }
    rewrite HJ. apply directlyInPages_intro; auto.
  - rewrite Join_pages_name.
    + apply directlyInPages_intro; try (now apply suffixed_name).
      now rewrite anyChar_app, Hslash, Hext.
    + now rewrite anyChar_app, Hslash, Hext.
    + now apply suffixed_name.
    + now apply suffixed_name.
    + now apply suffixed_name.
Qed.

Lemma sliceFrom_app (w s : string) :
  sliceFrom (String.length w) (w +:+ s) = Some s.
Proof.
  unfold sliceFrom. rewrite length_app_str.
  replace (String.length w + String.length s - String.length w)%nat
    with (String.length s) by lia.
  rewrite substring_suffix.
  now destruct (Nat.leb_spec (String.length w)
                  (String.length w + String.length s)); [|lia].
Qed.

(** ** The page viewer *)

(** C1: whatever slug the request path carries, the page file and the link
    file that the viewer opens are entries of the directory "pages" itself
    (one file name after "pages/", which is neither "." nor ".." and has no
    slash), and the answer depends on the store through these two files
    only; the store is left as it is. *)
Theorem pageView_no_traversal (slug : string) :
  directlyInPages (pageFilename slug) /\
  directlyInPages (youtubeFilename slug) /\
  forall (r : Request) (fs1 fs2 : filesystem),
    URLPath r = "/page/" +:+ slug ->
    fs1 !! pageFilename slug = fs2 !! pageFilename slug ->
    fs1 !! youtubeFilename slug = fs2 !! youtubeFilename slug ->
    (pageViewHandler r fs1).1 = (pageViewHandler r fs2).1 /\
    (pageViewHandler r fs1).2 = fs1.
Proof.
  split; [|split].
  - unfold pageFilename. apply Join_pages_Base;
      [simpl; lia | reflexivity | discriminate].
  - unfold youtubeFilename. apply Join_pages_Base;
      [simpl; lia | reflexivity | discriminate].
  - intros r fs1 fs2 Hpath Hpage Hlinks. unfold pageViewHandler.
    rewrite Hpath, (sliceFrom_app "/page/" slug).
    fold (pageFilename slug). unfold linkList, ReadFile.
    rewrite <- Hpage, <- Hlinks.
    destruct (fs1 !! pageFilename slug) as [[body|]|]; auto.
Qed.

Lemma pageView_no_traversal_witness :
  directlyInPages (pageFilename "../../etc/passwd") /\
  pageFilename "../../etc/passwd" = "pages/passwd.txt" /\
  pageFilename ".." = "pages/...txt".
Proof.
  split; [apply (pageView_no_traversal "../../etc/passwd")|].
  split; reflexivity.
Defined.

(** ** The page list *)

Lemma HasSuffix_app (s suffix : string) : HasSuffix (s +:+ suffix) suffix = true.
Proof.
  unfold HasSuffix. rewrite length_app_str.
  replace (String.length s + String.length suffix - String.length suffix)%nat
    with (String.length s) by lia.
  rewrite substring_suffix, String.eqb_refl, andb_true_r.
  apply Nat.leb_le. lia.
Qed.

Lemma TrimSuffix_app (s suffix : string) : TrimSuffix (s +:+ suffix) suffix = s.
Proof.
  unfold TrimSuffix. rewrite HasSuffix_app, length_app_str.
  replace (String.length s + String.length suffix - String.length suffix)%nat
    with (String.length s) by lia.
  apply substring_prefix.
Qed.

Lemma fold_left_snoc_omap {A B} (cond : A -> bool) (f : A -> B)
    (l : list A) (acc : list B) :
  fold_left (fun acc x => if cond x then (acc ++ [f x])%list else acc) l acc =
  (acc ++ omap (fun x => if cond x then Some (f x) else None) l)%list.
Proof.
  revert acc. induction l as [|x l IH]; intros acc; simpl.
  - now rewrite app_nil_r.
  - rewrite IH. destruct (cond x); simpl; [now rewrite <- app_assoc | reflexivity].
Qed.

Lemma pageNamesOf_omap (files : list DirEntry) :
  pageNamesOf files =
  omap (fun file =>
          if negb (IsDir file) && HasSuffix (Name file) ".txt"
          then Some (TrimSuffix (Name file) ".txt") else None) files.
Proof.
  unfold pageNamesOf.
  apply (fold_left_snoc_omap
           (fun file => negb (IsDir file) && HasSuffix (Name file) ".txt")
           (fun file => TrimSuffix (Name file) ".txt") files []).
Qed.

Lemma pageNamesOf_file (files : list DirEntry) (s : string) :
  {| Name := s +:+ ".txt"; IsDir := false |} ∈ files ->
  s ∈ pageNamesOf files.
Proof.
  intros Hin. rewrite pageNamesOf_omap. apply list_elem_of_omap.
  eexists. split; [exact Hin|]. simpl.
  now rewrite HasSuffix_app, TrimSuffix_app.
Qed.

Lemma ReadDir_file (fs : filesystem) (name content : string) :
  anyChar isSlash name = false -> name <> "" ->
  fs !! ("pages/" +:+ name) = Some (File content) ->
  {| Name := name; IsDir := false |} ∈ ReadDir fs "pages".
Proof.
  intros Hslash Hne Hfile. unfold ReadDir.
  rewrite merge_sort_Permutation. apply list_elem_of_omap.
  exists ("pages/" +:+ name, File content). split.
  - now apply elem_of_map_to_list.
  - unfold entryIn. simpl fst. simpl snd.
    change ("pages" +:+ "/") with "pages/".
    rewrite stripPrefix_app, Hslash.
    apply String.eqb_neq in Hne. now rewrite Hne.
Qed.

(** C10: the page list takes every plain file of "pages" whose name ends
    in ".txt", and the link files end so too: a page s with a link file is
    listed as "s" and again as "s.youtube". *)
Theorem index_lists_link_files (r : Request) (fs : filesystem)
    (s body links : string) :
  anyChar isSlash s = false ->
  fs !! ("pages/" +:+ s +:+ ".txt") = Some (File body) ->
  fs !! ("pages/" +:+ s +:+ ".youtube.txt") = Some (File links) ->
  exists pageNames,
    indexHandler r fs = (RenderIndex pageNames, fs) /\
    In s pageNames /\ In (s +:+ ".youtube") pageNames.
Proof.
  intros Hslash Hpage Hlinks. eexists. split; [reflexivity|].
  rewrite <- !list_elem_of_In. split.
  - apply pageNamesOf_file. apply (ReadDir_file fs _ body); auto.
    + now rewrite anyChar_app, Hslash.
    + intros H. apply (f_equal String.length) in H.
      rewrite length_app_str in H. simpl in H. lia.
  - apply pageNamesOf_file. rewrite app_assoc_str.
    apply (ReadDir_file fs _ links); auto.
    + now rewrite anyChar_app, Hslash.
    + intros H. apply (f_equal String.length) in H.
      rewrite length_app_str in H. simpl in H. lia.
Qed.

Lemma index_lists_link_files_witness :
  exists pageNames,
    indexHandler {| Method := "GET"; URLPath := "/"; Decoded := None |}
      (<["pages/p.youtube.txt" := File "https://youtu.be/abc123"]>
         (<["pages/p.txt" := File "body"]> ∅)) =
    (RenderIndex pageNames,
     <["pages/p.youtube.txt" := File "https://youtu.be/abc123"]>
       (<["pages/p.txt" := File "body"]> ∅)) /\
    In "p" pageNames /\ In ("p" +:+ ".youtube") pageNames.
Proof.
  apply (index_lists_link_files _ _ "p" "body" "https://youtu.be/abc123");
    reflexivity.
Defined.

(** ** The link list *)

Lemma omap_filter_map {A B} (cond : A -> bool) (f : A -> B) (l : list A) :
  omap (fun x => if cond x then Some (f x) else None) l =
  List.map f (List.filter cond l).
Proof.
  induction l as [|x l IH]; [reflexivity|].
  csimpl. destruct (cond x); csimpl; now rewrite <- IH.
Qed.

Lemma embedURLsOf_spec (youtubeURLs : string) :
  embedURLsOf youtubeURLs = embedURLs_spec youtubeURLs.
Proof.
  unfold embedURLsOf, embedURLs_spec.
  rewrite (fold_left_snoc_omap (fun url => negb (String.eqb url ""))
             processYouTubeURL).
  apply omap_filter_map.
Qed.

Lemma processYouTubeURL_cases (text : string) :
  (processYouTubeURL text = "" /\ ~ hasYouTubeRef text) \/
  (isEmbedURL (processYouTubeURL text) /\ hasYouTubeRef text).
Proof.
  rewrite processYouTubeURL_fst.
  destruct (extractYouTubeVideoInfo_cases text)
    as [[-> Hno] | (id & Hne & Hid & -> & Hyes)]; simpl.
  - now left.
  - right. split; [now exists id | exact Hyes].
Qed.

(** C4 as stated fails: a line without a YouTube reference stays in the
    link list, as an empty string. The link store accepts such a line when
    the text it is given holds a reference on another line. *)
Lemma linkList_keeps_failed_lines :
  let fs0 : filesystem := <["pages/p.txt" := File "body"]> ∅ in
  let url := "hello" +:+ String newline "https://youtu.be/abc" in
  let saved := youtubeSaveHandler
                 (request "POST" "/api/page/p/save-youtube" (Some url)) fs0 in
  saved.1 = Wrote StatusOK "YouTube link saved!" /\
  linkList saved.2 "p" = [""; "https://www.youtube.com/embed/abc"].
Proof. split; vm_compute; reflexivity. Qed.

(** C4, amended: the link list is empty when the link file cannot be read;
    otherwise it holds, in their order, the extractor's answer for every
    non-empty line of the file, and each element is an embed URL or, for a
    line without a YouTube reference, the empty string. *)
Theorem linkList_every_nonempty_line (fs : filesystem) (slug : string) :
  linkList fs slug =
    match ReadFile fs (youtubeFilename slug) with
    | None => []
    | Some youtubeURLs => embedURLs_spec youtubeURLs
    end /\
  Forall (fun u => u = "" \/ isEmbedURL u) (linkList fs slug).
Proof.
  unfold linkList. destruct (ReadFile fs (youtubeFilename slug)) as [content|].
  - rewrite embedURLsOf_spec. split; [reflexivity|].
    unfold embedURLs_spec. apply Forall_forall. intros u Hu.
    apply list_elem_of_In, in_map_iff in Hu as (line & <- & _).
    destruct (processYouTubeURL_cases line) as [[-> _] | [He _]]; auto.
  - split; [reflexivity | constructor].
Qed.

(** ** The page store *)

Lemma nameClass_props (c : ascii) :
  nameClass c = true ->
  isASCIIbyte c = true /\ isUpper c = false /\ Ascii.eqb c " " = false /\
  (slugClass c = true -> slugByte c = true).
Proof. destruct c as [[] [] [] [] [] [] [] []]; vm_compute; intuition congruence. Qed.

Lemma slugByte_no_slash (c : ascii) : slugByte c = true -> isSlash c = false.
Proof. destruct c as [[] [] [] [] [] [] [] []]; vm_compute; congruence. Qed.

Lemma allChars_keepChars_both (p q : ascii -> bool) (r : ascii -> bool)
    (s : string) :
  (forall c, q c = true -> p c = true -> r c = true) ->
  allChars q s = true -> allChars r (keepChars p s) = true.
Proof.
  intros Hr. induction s as [|a s IH]; simpl; [reflexivity|].
  intros [Ha Hs]%andb_true_iff.
  destruct (p a) eqn:Hp; simpl; [rewrite (Hr a Ha Hp)|]; auto.
Qed.

(** On a name that passed charchecker the slug is the name without its
    underscores, "untitled" when nothing is left. *)
Lemma deriveSlug_valid (mapLower : string -> string) (name : string) :
  allChars nameClass name = true ->
  deriveSlug mapLower name =
    (if String.eqb (keepChars slugClass name) "" then "untitled"
     else keepChars slugClass name) /\
  allChars slugByte (deriveSlug mapLower name) = true /\
  deriveSlug mapLower name <> "".
Proof.
  intros Hall.
  assert (Heq : deriveSlug mapLower name =
                if String.eqb (keepChars slugClass name) "" then "untitled"
                else keepChars slugClass name).
  { unfold deriveSlug, slugRegex_ReplaceAllString_empty, ToLower.
    assert (Hascii : allChars isASCIIbyte name = true).
    { revert Hall. apply allChars_impl. intros c Hc. now apply nameClass_props. }
    assert (Hup : anyChar isUpper name = false).
    { apply noUpper_all. revert Hall. apply allChars_impl. intros c Hc.
      apply negb_true_iff. now apply nameClass_props. }
    rewrite Hascii, Hup. simpl negb. cbv iota.
    assert (Hrep : ReplaceAll name " " "-" = name).
    { unfold ReplaceAll. apply (mapChars_id _ nameClass); [|exact Hall].
      intros c Hc. apply nameClass_props in Hc as (_ & _ & -> & _). reflexivity. }
    now rewrite Hrep. }
  split; [exact Heq|]. rewrite Heq.
  destruct (String.eqb (keepChars slugClass name) "") eqn:He.
  - split; [reflexivity | discriminate].
  - split; [|intros H; rewrite H in He; discriminate].
    apply (allChars_keepChars_both slugClass nameClass); [|exact Hall].
    intros c Hc Hs. now apply nameClass_props.
Qed.

Lemma Join_pages_slug (slug ext : string) :
  allChars slugByte slug = true -> slug <> "" ->
  (2 <= String.length ext)%nat -> anyChar isSlash ext = false ->
  Join ["pages"; slug +:+ ext] = "pages/" +:+ slug +:+ ext.
Proof.
  intros Hall Hne Hlen Hext.
  assert (Hslash : anyChar isSlash slug = false).
  { apply not_true_is_false. intros Hany.
    apply anyChar_In in Hany as (c & Hc & Hs).
    rewrite allChars_In in Hall. apply Hall, slugByte_no_slash in Hc.
    congruence. }
  apply Join_pages_name; try (now apply suffixed_name).
  now rewrite anyChar_app, Hslash, Hext.
Qed.




(** ** The link store *)

Lemma trimTrailingSlashes_no_slash (s : string) :
  anyChar isSlash s = false -> trimTrailingSlashes s = s.
Proof.
  induction s as [|c s IH]; simpl; [reflexivity|].
  intros [Hc Hs]%orb_false_iff. rewrite (IH Hs), Hc. now destruct s.
Qed.

Lemma Base_no_slash (slug : string) :
  slug <> "" -> anyChar isSlash slug = false -> Base slug = slug.
Proof.
  intros Hne Hslash. unfold Base.
  apply String.eqb_neq in Hne. rewrite Hne.
  rewrite (trimTrailingSlashes_no_slash slug Hslash).
  rewrite (Split_no_sep slug "/" Hslash). simpl. now rewrite Hne.
Qed.

Lemma Split_api_path (kind slug tail : string) :
  anyChar isSlash kind = false -> anyChar isSlash slug = false ->
  Split ("/api/" +:+ kind +:+ "/" +:+ slug +:+ "/" +:+ tail) "/" =
  "" :: "api" :: kind :: slug :: Split tail "/".
Proof.
  intros Hkind Hslug.
  change ("/api/" +:+ kind +:+ "/" +:+ slug +:+ "/" +:+ tail)
    with ("" +:+ String "/" ("api" +:+ String "/"
            (kind +:+ String "/" (slug +:+ String "/" tail)))).
  now rewrite !Split_app_sep.
Qed.

Lemma Join_pages_part (part ext : string) :
  anyChar isSlash part = false ->
  (3 <= String.length ext)%nat -> anyChar isSlash ext = false ->
  Join ["pages"; part +:+ ext] = "pages/" +:+ part +:+ ext.
Proof.
  intros Hpart Hlen Hext.
  assert (Hlen' : (3 <= String.length (part +:+ ext))%nat).
  { rewrite length_app_str. lia. }
  apply Join_pages_name.
  - now rewrite anyChar_app, Hpart, Hext.
  - intros H. rewrite H in Hlen'. simpl in Hlen'. lia.
  - intros H. rewrite H in Hlen'. simpl in Hlen'. lia.
  - intros H. rewrite H in Hlen'. simpl in Hlen'. lia.
Qed.


(** C8 as stated fails: a page whose slug is long has a page file but can
    get no link file, because the name of the link file is eight bytes
    longer: the page is created, and the save of a link for it, with a
    reference in the text, is answered 500 "Could not save link" and
    appends nothing. *)
Lemma youtubeSave_long_slug_fails :
  let created :=
    createPageHandler asciiMapLower
      (request "POST" "/create" (Some longSlug)) ∅ in
  let saved :=
    youtubeSaveHandler
      (request "POST" ("/api/page/" +:+ longSlug +:+ "/save-youtube")
               (Some "https://youtu.be/abc123")) created.2 in
  created.1 = HttpRedirect ("/page/" +:+ longSlug) StatusSeeOther /\
  ReadFile created.2 ("pages/" +:+ longSlug +:+ ".txt") =
    Some ("This is the new page for **" +:+ longSlug +:+ "**") /\
  saved.1 = HttpError "Could not save link" StatusInternalServerError /\
  ReadFile saved.2 ("pages/" +:+ longSlug +:+ ".youtube.txt") = None /\
  linkList saved.2 longSlug = [].
Proof. cbv zeta. repeat split; vm_compute; reflexivity. Qed.



(** ** The vote store *)

Section VoteProperties.

Variable json_Marshal : gmap string Z -> string.
Variable json_Unmarshal : string -> Unmarshaled.

Lemma vote_path_parts (slug videoID action : string) :
    anyChar isSlash slug = false -> anyChar isSlash videoID = false ->
    Split (URLPath (voteRequest slug videoID action)) "/" =
    "" :: "api" :: "vote" :: slug :: videoID :: Split action "/".
  Proof.
    intros Hslug Hvid. unfold voteRequest, request. simpl URLPath.
    etransitivity;
      [apply (Split_api_path "vote" slug (videoID +:+ "/" +:+ action));
       [reflexivity | exact Hslug] |].
    change (videoID +:+ "/" +:+ action) with (videoID +:+ String "/" action).
    now rewrite Split_app_sep.
  Qed.

(** For the documented path the handler takes "vote" as the slug, the
      slug as the video ID and the video ID as the action. *)
Lemma vote_documented_rejected (fs : filesystem)
      (slug videoID action : string) :
    anyChar isSlash slug = false -> anyChar isSlash videoID = false ->
    videoID <> "upvote" -> videoID <> "downvote" ->
    youtubeVoteHandler json_Marshal json_Unmarshal
      (voteRequest slug videoID action) fs =
    (HttpError "Invalid action" StatusBadRequest, fs).
  Proof.
    intros Hslug Hvid Hup Hdown. unfold youtubeVoteHandler.
    rewrite (vote_path_parts slug videoID action Hslug Hvid).
    apply String.eqb_neq in Hup, Hdown. simpl. now rewrite Hup, Hdown.
  Qed.

(** C2 (the code at the documented requests): when the video ID is not
      itself the word upvote or downvote, every documented upvote and
      downvote request for it is answered "Invalid action" and the store
      stays as it was, so no tally is ever written for the video. *)
Theorem documented_votes_leave_store (fs : filesystem)
      (slug videoID : string) (rs : list Request) :
    anyChar isSlash slug = false -> anyChar isSlash videoID = false ->
    videoID <> "upvote" -> videoID <> "downvote" ->
    Forall (fun r => r = voteRequest slug videoID "upvote" \/
                     r = voteRequest slug videoID "downvote") rs ->
    serve (youtubeVoteHandler json_Marshal json_Unmarshal) rs fs =
    (List.map (fun _ => HttpError "Invalid action" StatusBadRequest) rs, fs).
  Proof.
    intros Hslug Hvid Hup Hdown Hrs.
    induction Hrs as [|r rs Hr Hrs IH]; [reflexivity|].
    cbn [serve List.map].
    destruct Hr as [-> | ->];
      rewrite vote_documented_rejected by assumption; now rewrite IH.
  Qed.

(** C3 (the code at the documented requests): the handler answers
      "Invalid action" if and only if the video ID segment is neither
      upvote nor downvote, whatever the action segment says. *)
Theorem vote_action_read_from_videoID (fs : filesystem)
      (slug videoID action : string) :
    anyChar isSlash slug = false -> anyChar isSlash videoID = false ->
    ((youtubeVoteHandler json_Marshal json_Unmarshal
        (voteRequest slug videoID action) fs).1 =
       HttpError "Invalid action" StatusBadRequest
     <-> videoID <> "upvote" /\ videoID <> "downvote").
  Proof.
    intros Hslug Hvid. split.
    - unfold youtubeVoteHandler.
      rewrite (vote_path_parts slug videoID action Hslug Hvid). simpl.
      destruct (String.eqb_spec videoID "upvote") as [Hu|Hu];
        destruct (String.eqb_spec videoID "downvote") as [Hd|Hd]; simpl;
        try (intros _; now split);
        match goal with
        | |- context [match ?l with
                      | UnmarshalError => _ | NilMap => _ | Votes _ => _
                      end] =>
            destruct l as [| |votes]; simpl; try discriminate
        end;
        match goal with
        | |- context [WriteFile ?a ?b ?c] =>
            destruct (WriteFile a b c); simpl; discriminate
        end.
    - intros [Hu Hd]. now rewrite vote_documented_rejected.
  Qed.

End VoteProperties.

Lemma documented_votes_leave_store_witness :
  serve (youtubeVoteHandler unusedMarshal unusedUnmarshal)
    [voteRequest "mypage" "abc123" "upvote";
     voteRequest "mypage" "abc123" "downvote";
     voteRequest "mypage" "abc123" "downvote"] ∅ =
  ([HttpError "Invalid action" StatusBadRequest;
    HttpError "Invalid action" StatusBadRequest;
    HttpError "Invalid action" StatusBadRequest], ∅).
Proof.
  apply (documented_votes_leave_store unusedMarshal unusedUnmarshal ∅
           "mypage" "abc123");
    [reflexivity | reflexivity | discriminate | discriminate |].
  repeat (apply List.Forall_cons;
          [first [left; reflexivity | right; reflexivity]|]).
  apply List.Forall_nil.
Defined.

Lemma vote_action_read_from_videoID_witness :
  (youtubeVoteHandler unusedMarshal unusedUnmarshal
     (voteRequest "mypage" "abc123" "upvote") ∅).1 =
  HttpError "Invalid action" StatusBadRequest.
Proof.
  destruct (vote_action_read_from_videoID unusedMarshal unusedUnmarshal ∅
              "mypage" "abc123" "upvote" eq_refl eq_refl) as [_ Hreject].
  apply Hreject. split; discriminate.
Defined.

(** The handler does count votes, for the path layout its indices fit:
    /api/vote/{videoID}/{action}, with every page sharing the tally file
    of the slug "vote". *)
Section VoteLayout.

Variable json_Marshal : gmap string Z -> string.
Variable json_Unmarshal : string -> Unmarshaled.

Lemma vote_counts_at_shifted_path (fs : filesystem)
    (videoID action : string) (votes : gmap string Z) :
  anyChar isSlash videoID = false ->
  action = "upvote" \/ action = "downvote" ->
  match fs !! "pages/vote.votes.json" with
  | None => votes = ∅
  | Some (File data) => json_Unmarshal data = Votes votes
  | Some Dir => False
  end ->
  youtubeVoteHandler json_Marshal json_Unmarshal
    (request "POST" ("/api/vote/" +:+ videoID +:+ "/" +:+ action) None) fs =
  (Wrote StatusOK "Vote saved!",
   <["pages/vote.votes.json" :=
       File (json_Marshal
               (<[videoID :=
                    wrapInt (default 0%Z (votes !! videoID) +
                             (if String.eqb action "upvote" then 1 else -1))]>
                  votes))]> fs).
Proof.
  intros Hvid Haction Hstore. unfold youtubeVoteHandler.
  assert (Hparts : Split (URLPath (request "POST"
                     ("/api/vote/" +:+ videoID +:+ "/" +:+ action) None)) "/" =
                   [""; "api"; "vote"; videoID; action]).
  { etransitivity;
      [apply (Split_api_path "vote" videoID action);
       [reflexivity | exact Hvid] |].
    now destruct Haction as [-> | ->]. }
  rewrite Hparts. simpl Method. simpl length. simpl nth.
  change (Join ["pages"; "vote" +:+ ".votes.json"]) with "pages/vote.votes.json".
  change (negb (String.eqb "POST" MethodPost)) with false.
  change (5 <? 5)%nat with false. cbv iota. cbv zeta.
  unfold ReadFile, WriteFile.
  change (osAcceptsName "pages/vote.votes.json") with true. cbv iota.
  destruct (fs !! "pages/vote.votes.json") as [[data|]|] eqn:Hfile;
    [rewrite Hstore | contradiction | subst votes];
    destruct Haction as [-> | ->]; reflexivity.
Qed.

End VoteLayout.

(** * Further properties of the code *)

(** ** More on strings *)

Lemma takeChars_dropChars (p : ascii -> bool) (s : string) :
  s = takeChars p s +:+ dropChars p s.
Proof.
  induction s as [|c s IH]; simpl; [reflexivity|].
  destruct (p c); [rewrite app_String; now f_equal | reflexivity].
Qed.

Lemma takeChars_all (p : ascii -> bool) (s : string) :
  allChars p (takeChars p s) = true.
Proof.
  induction s as [|c s IH]; simpl; [reflexivity|].
  destruct (p c) eqn:Hc; simpl; [now rewrite Hc | reflexivity].
Qed.

Lemma dropChars_stop (p : ascii -> bool) (s : string) :
  match dropChars p s with "" => true | String c _ => negb (p c) end = true.
Proof.
  induction s as [|c s IH]; simpl; [reflexivity|].
  destruct (p c) eqn:Hc; [exact IH | simpl; now rewrite Hc].
Qed.

Lemma app_eq_self_r (s t : string) : s = s +:+ t -> t = "".
Proof.
  induction s as [|c s IH]; [intros H; symmetry; exact H|].
  rewrite app_String. intros [= H]. now apply IH.
Qed.




(** ** The extractor: the leftmost reference, with its whole ID *)

(** A match of youtubeRegex at the start of a text takes the ID up to the
    first byte outside the ID charset. *)
Lemma matchAt_youtube_inv (t : string) (m : list string) :
  matchAt youtubeRegex t = Some m ->
  exists pre host id rest,
    In pre urlPrefixes /\ In host youtubeHosts /\
    id <> "" /\ allChars idClass id = true /\ idStop rest = true /\
    t = pre +:+ host +:+ id +:+ rest /\ m = [pre +:+ host +:+ id; id].
Proof.
  intros Hm. pose proof Hm as Hm0.
  apply matchAt_sound in Hm as (w & rest & cs & -> & Hmatch & ->).
  apply matches_youtubeRegex_inv in Hmatch
    as (pre & host & id & Hpre & Hhost & Hne & Hid & -> & ->).
  set (more := takeChars idClass rest). set (rest' := dropChars idClass rest).
  assert (Hshape : matchAt youtubeRegex
                     (pre +:+ host +:+ (id +:+ more) +:+ rest') =
                   Some [pre +:+ host +:+ (id +:+ more); id +:+ more]).
  { apply matchAt_youtube_shape; auto.
    - destruct id; [contradiction | rewrite app_String; discriminate].
    - rewrite allChars_app, Hid. apply takeChars_all.
    - apply dropChars_stop. }
  assert (Heq : (pre +:+ host +:+ id) +:+ rest =
                pre +:+ host +:+ (id +:+ more) +:+ rest').
  { rewrite !app_assoc_str. do 3 f_equal. apply takeChars_dropChars. }
  rewrite Heq, Hshape in Hm0. injection Hm0 as _ Hid2.
  symmetry in Hid2. apply app_eq_self_r in Hid2.
  assert (Hrest : rest = rest').
  { rewrite (takeChars_dropChars idClass rest). fold more rest'.
    now rewrite Hid2. }
  exists pre, host, id, rest. repeat split; auto.
  - rewrite Hrest. apply dropChars_stop.
  - now rewrite !app_assoc_str.
Qed.

Lemma matchAt_youtube_starts (t : string) :
  startsYouTubeRef t -> matchAt youtubeRegex t <> None.
Proof.
  intros (pre & host & c & rest & Hpre & Hhost & Hc & ->). unfold matchAt.
  destruct (plusFrom idClass (String c rest)
              (fun r => Some (consumed (pre +:+ host +:+ String c rest) r
                                :: ([] ++ [consumed (String c rest) r])%list)))
    as [x|] eqn:Hplus.
  - now rewrite (reMatch_youtube_shape pre host (String c rest) [] _ x).
  - exfalso. revert Hplus. apply plusFrom_total; [assumption|discriminate].
Qed.

(** FindStringSubmatch takes the first place of the text with a match. *)
Lemma FindStringSubmatch_leftmost (r : regex) (s : string) :
  (FindStringSubmatch r s = [] /\
   forall before t, s = before +:+ t -> matchAt r t = None)
  \/ (exists before t,
        s = before +:+ t /\
        matchAt r t = Some (FindStringSubmatch r s) /\
        forall b1 t1, s = b1 +:+ t1 ->
          (String.length b1 < String.length before)%nat ->
          matchAt r t1 = None).
Proof.
  induction s as [|c s IH]; simpl.
  - destruct (matchAt r "") as [m|] eqn:Hm.
    + right. exists "", "". rewrite Hm. repeat split; auto.
      intros b1 t1 _ Hlt. simpl in Hlt. lia.
    + left. split; [reflexivity|]. intros before t Heq.
      destruct before; [|discriminate]. rewrite app_empty_l in Heq.
      now subst t.
  - destruct (matchAt r (String c s)) as [m|] eqn:Hm.
    + right. exists "", (String c s). rewrite Hm. repeat split; auto.
      intros b1 t1 _ Hlt. simpl in Hlt. lia.
    + destruct IH as [[Hnil Hall] | (before & t & -> & Ht & Hfirst)].
      * left. split; [exact Hnil|]. intros before t Heq.
        destruct before as [|b before].
        -- rewrite app_empty_l in Heq. now subst t.
        -- rewrite app_String in Heq. injection Heq as _ Heq.
           now apply (Hall before).
      * right. exists (String c before), t. rewrite app_String.
        repeat split; auto. intros b1 t1 Heq Hlt.
        destruct b1 as [|b b1].
        -- rewrite app_empty_l in Heq. now subst t1.
        -- rewrite app_String in Heq. injection Heq as _ Heq.
           apply (Hfirst b1 t1 Heq). simpl in Hlt. lia.
Qed.

(** X1: for every text the extractor answers two empty strings when no
    place of the text begins a reference, and otherwise the embed URL and
    the ID of the leftmost reference, the ID taken up to the first byte
    outside its charset; processYouTubeURL answers the same embed URL. *)
Theorem extract_leftmost_longest (text : string) :
  processYouTubeURL text = (extractYouTubeVideoInfo text).1 /\
  ((extractYouTubeVideoInfo text = ("", "") /\
    forall before t, text = before +:+ t -> ~ startsYouTubeRef t)
   \/
   (exists before pre host id rest,
      text = before +:+ pre +:+ host +:+ id +:+ rest /\
      In pre urlPrefixes /\ In host youtubeHosts /\
      id <> "" /\ allChars idClass id = true /\ idStop rest = true /\
      extractYouTubeVideoInfo text =
        ("https://www.youtube.com/embed/" +:+ id, id) /\
      forall b1 t1, text = b1 +:+ t1 ->
        (String.length b1 < String.length before)%nat ->
        ~ startsYouTubeRef t1)).
Proof.
  split; [apply processYouTubeURL_fst|].
  unfold extractYouTubeVideoInfo.
  destruct (FindStringSubmatch_leftmost youtubeRegex text)
    as [[-> Hall] | (before & t & -> & Ht & Hfirst)].
  - left. split; [reflexivity|]. intros before t Heq Hstart.
    apply matchAt_youtube_starts in Hstart. now apply Hstart, (Hall before).
  - right. apply matchAt_youtube_inv in Ht
      as (pre & host & id & rest & Hpre & Hhost & Hne & Hid & Hstop & -> & ->).
    exists before, pre, host, id, rest. repeat split; auto.
    intros b1 t1 Heq Hlt Hstart.
    apply matchAt_youtube_starts in Hstart. now apply Hstart, (Hfirst b1).
Qed.

(** X2: what follows the ID does not matter: a supported URL shape with
    its ID, followed by nothing or by any text that starts with a byte
    outside the ID charset (a query parameter, a space, more links), gives
    the embed URL of that ID. *)
Theorem extract_ignores_what_follows (pre host id rest : string) :
  In pre urlPrefixes -> In host youtubeHosts ->
  id <> "" -> allChars idClass id = true -> idStop rest = true ->
  extractYouTubeVideoInfo (pre +:+ host +:+ id +:+ rest) =
  ("https://www.youtube.com/embed/" +:+ id, id).
Proof.
  intros Hpre Hhost Hne Hid Hstop. unfold extractYouTubeVideoInfo.
  now rewrite (FindStringSubmatch_here _ _ [pre +:+ host +:+ id; id])
    by now apply matchAt_youtube_shape.
Qed.

Lemma extract_ignores_what_follows_witness :
  extractYouTubeVideoInfo
    ("https://www." +:+ "youtube.com/watch?v=" +:+ "dQw4w9WgXcQ" +:+
     "&t=42 and https://youtu.be/other") =
  ("https://www.youtube.com/embed/" +:+ "dQw4w9WgXcQ", "dQw4w9WgXcQ").
Proof.
  apply extract_ignores_what_follows;
    [simpl; tauto | simpl; tauto | discriminate | reflexivity | reflexivity].
Defined.

(** ** Slugs of the page store *)

Lemma slugByte_spec (c : ascii) :
  slugByte c = true <->
  (97 <= byteval c <= 122)%N \/ (48 <= byteval c <= 57)%N \/
  byteval c = 45%N.
Proof.
  unfold slugByte, isLower, isDigit.
  rewrite !orb_true_iff, !inRange_spec, !ascii_eqb_byteval.
  change (byteval "a") with 97%N. change (byteval "z") with 122%N.
  change (byteval "0") with 48%N. change (byteval "9") with 57%N.
  change (byteval "-") with 45%N.
  tauto.
Qed.


Section SlugCharset.

Variable mapLower : string -> string.

Hypothesis mapLower_no_upper :
  forall s, anyChar isUpper (mapLower s) = false.

(** X3: whatever the name, the derived slug is not empty, each of its
    bytes is a lower-case letter, a digit or a hyphen, and the page file
    built from it is an entry of the directory "pages" itself. *)
Theorem deriveSlug_charset (name : string) :
  deriveSlug mapLower name <> "" /\
  (forall c, In c (chars (deriveSlug mapLower name)) ->
     (97 <= byteval c <= 122)%N \/ (48 <= byteval c <= 57)%N \/
     byteval c = 45%N) /\
  Join ["pages"; deriveSlug mapLower name +:+ ".txt"] =
    "pages/" +:+ deriveSlug mapLower name +:+ ".txt".
Proof.
  destruct (deriveSlug_slugBytes mapLower mapLower_no_upper name)
    as [Hall Hne].
  split; [exact Hne|]. split.
  - intros c Hc. apply slugByte_spec. rewrite allChars_In in Hall. auto.
  - apply Join_pages_slug; auto. simpl. lia.
Qed.

End SlugCharset.

Lemma deriveSlug_charset_witness :
  deriveSlug asciiMapLower "Tea & Coffee -- 2 go!" =
    "tea--coffee----2-go" /\
  Join ["pages";
        deriveSlug asciiMapLower "Tea & Coffee -- 2 go!" +:+ ".txt"] =
    "pages/" +:+
    deriveSlug asciiMapLower "Tea & Coffee -- 2 go!" +:+ ".txt".
Proof.
  split; [reflexivity|].
  apply (deriveSlug_charset asciiMapLower asciiMapLower_no_upper).
Defined.

Lemma keepChars_ext (p q r : ascii -> bool) (s : string) :
  (forall c, r c = true -> p c = q c) ->
  allChars r s = true -> keepChars p s = keepChars q s.
Proof.
  intros Hpq. induction s as [|c s IH]; simpl; [reflexivity|].
  intros [Hc Hs]%andb_true_iff. now rewrite (Hpq c Hc), IH.
Qed.

Lemma nameClass_slugClass (c : ascii) :
  nameClass c = true -> slugClass c = negb (Ascii.eqb c "_").
Proof. destruct c as [[] [] [] [] [] [] [] []]; vm_compute; congruence. Qed.

(** X4: on a name that charchecker accepts, lowering and the replacement
    of spaces change nothing: the slug is the name with its underscores
    deleted, and "untitled" when the name has underscores only. It does
    not depend on the Unicode tables. *)
Theorem deriveSlug_of_valid_name (mapLower : string -> string)
    (name : string) :
  charchecker name = None ->
  deriveSlug mapLower name =
    if allChars (fun c => Ascii.eqb c "_") name then "untitled"
    else keepChars (fun c => negb (Ascii.eqb c "_")) name.
Proof.
  intros Hvalid. apply charchecker_None in Hvalid.
  destruct (deriveSlug_valid mapLower name Hvalid) as (-> & _ & _).
  rewrite (keepChars_ext slugClass (fun c => negb (Ascii.eqb c "_"))
             nameClass name nameClass_slugClass Hvalid).
  clear Hvalid. induction name as [|c name IH]; [reflexivity|].
  simpl. destruct (Ascii.eqb c "_"); simpl; [exact IH | reflexivity].
Qed.

Lemma deriveSlug_of_valid_name_witness :
  deriveSlug asciiMapLower "my_new_page" = "mynewpage" /\
  deriveSlug asciiMapLower "___" = "untitled".
Proof.
  split.
  - apply (deriveSlug_of_valid_name asciiMapLower "my_new_page"). reflexivity.
  - apply (deriveSlug_of_valid_name asciiMapLower "___"). reflexivity.
Defined.

(** ** The page list, exactly *)

Lemma substring_split (s : string) (k : nat) :
  (k <= String.length s)%nat ->
  s = substring 0 k s +:+ substring k (String.length s - k) s.
Proof.
  revert k. induction s as [|c s IH]; intros k Hk.
  - simpl in Hk. now replace k with 0%nat by lia.
  - destruct k as [|k].
    + simpl. now rewrite substring_all.
    + simpl in *. rewrite app_String. f_equal. apply IH. lia.
Qed.

Lemma HasSuffix_inv (s suffix : string) :
  HasSuffix s suffix = true -> s = TrimSuffix s suffix +:+ suffix.
Proof.
  intros H. unfold TrimSuffix. rewrite H. unfold HasSuffix in H.
  apply andb_true_iff in H as [Hlen Heq].
  apply Nat.leb_le in Hlen. apply String.eqb_eq in Heq.
  set (k := (String.length s - String.length suffix)%nat) in *.
  rewrite (substring_split s k) at 1 by (unfold k; lia).
  f_equal. etransitivity; [|exact Heq]. f_equal. unfold k. lia.
Qed.

Lemma NoDup_omap_inj {A B} (f : A -> option B) (l : list A) :
  (forall x y z, x ∈ l -> y ∈ l -> f x = Some z -> f y = Some z -> x = y) ->
  NoDup l -> NoDup (omap f l).
Proof.
  intros Hinj Hnd. induction Hnd as [|x l Hx Hnd IH]; csimpl; [constructor|].
  assert (IH' : NoDup (omap f l)).
  { apply IH. intros a b z Ha Hb. apply Hinj; now right. }
  destruct (f x) as [z|] eqn:Hfx; [|exact IH'].
  constructor; [|exact IH'].
  intros Hin. apply list_elem_of_omap in Hin as (y & Hy & Hfy).
  assert (x = y) by (apply (Hinj x y z); [left | right | |]; auto).
  subst y. contradiction.
Qed.

Lemma entryIn_Some (k : string) (n : node) (e : DirEntry) :
  entryIn "pages" (k, n) = Some e ->
  k = "pages/" +:+ Name e /\ Name e <> "" /\
  anyChar isSlash (Name e) = false /\ IsDir e = isDirNode n.
Proof.
  unfold entryIn. simpl fst. simpl snd. change ("pages" +:+ "/") with "pages/".
  destruct (stripPrefix "pages/" k) as [name|] eqn:Hk; [|discriminate].
  apply stripPrefix_Some in Hk.
  destruct (String.eqb name "") eqn:He; [discriminate|].
  destruct (anyChar isSlash name) eqn:Hs; [discriminate|].
  simpl. intros [= <-]. simpl. apply String.eqb_neq in He. auto.
Qed.

Lemma ReadDir_elem (fs : filesystem) (e : DirEntry) :
  e ∈ ReadDir fs "pages" <->
  exists k n, fs !! k = Some n /\ entryIn "pages" (k, n) = Some e.
Proof.
  unfold ReadDir. rewrite merge_sort_Permutation, list_elem_of_omap. split.
  - intros ([k n] & Hin & He). apply elem_of_map_to_list in Hin. eauto.
  - intros (k & n & Hin & He). exists (k, n).
    split; [now apply elem_of_map_to_list | exact He].
Qed.

Lemma ReadDir_NoDup (fs : filesystem) : NoDup (ReadDir fs "pages").
Proof.
  unfold ReadDir. rewrite merge_sort_Permutation.
  apply NoDup_omap_inj; [|apply NoDup_map_to_list].
  intros [k1 n1] [k2 n2] e H1 H2 He1 He2.
  apply elem_of_map_to_list in H1, H2.
  apply entryIn_Some in He1 as (-> & _), He2 as (-> & _).
  rewrite H1 in H2. now injection H2 as ->.
Qed.

(** X5: the page list answers, each once, exactly the names x for which
    "pages/x.txt" is a plain file of the directory "pages" itself;
    directories and entries below a sub-directory are never listed, and
    the store is left as it is. *)
Theorem index_lists_exactly (r : Request) (fs : filesystem) :
  exists pageNames,
    indexHandler r fs = (RenderIndex pageNames, fs) /\
    List.NoDup pageNames /\
    forall x,
      In x pageNames <->
      anyChar isSlash x = false /\
      exists content, fs !! ("pages/" +:+ x +:+ ".txt") = Some (File content).
Proof.
  eexists. split; [reflexivity|]. split.
  - apply NoDup_ListNoDup. rewrite pageNamesOf_omap.
    apply NoDup_omap_inj; [|apply ReadDir_NoDup].
    intros [n1 d1] [n2 d2] x _ _. simpl.
    destruct d1, d2; simpl; try discriminate;
      destruct (HasSuffix n1 ".txt") eqn:H1; try discriminate;
      destruct (HasSuffix n2 ".txt") eqn:H2; try discriminate.
    intros [= <-] [= Heq].
    apply HasSuffix_inv in H1, H2. rewrite H1, H2, Heq. reflexivity.
  - intros x. rewrite <- list_elem_of_In. split.
    + rewrite pageNamesOf_omap, list_elem_of_omap.
      intros ([name dir] & Hin & Hx). simpl in Hx.
      destruct dir; simpl in Hx; [discriminate|].
      destruct (HasSuffix name ".txt") eqn:Hsuf; [|discriminate].
      injection Hx as <-. apply HasSuffix_inv in Hsuf.
      apply ReadDir_elem in Hin as (k & n & Hk & He).
      apply entryIn_Some in He as (-> & _ & Hslash & Hdir). simpl in *.
      rewrite Hsuf, anyChar_app in Hslash.
      apply orb_false_iff in Hslash as [Hslash _]. split; [exact Hslash|].
      destruct n as [content|]; [|discriminate].
      exists content. now rewrite <- Hsuf.
    + intros (Hslash & content & Hfile). apply pageNamesOf_file.
      apply (ReadDir_file fs _ content); auto.
      * now rewrite anyChar_app, Hslash.
      * intros H. apply (f_equal String.length) in H.
        rewrite length_app_str in H. simpl in H. lia.
Qed.

(** ** The page store: what a create can do *)

Lemma createPageHandler_valid (mapLower : string -> string)
    (r : Request) (fs : filesystem) (name : string) :
  Method r = "POST" -> Decoded r = Some name ->
  charchecker name = None -> name <> "" ->
  createPageHandler mapLower r fs =
    let slug := deriveSlug mapLower name in
    let filename := "pages/" +:+ slug +:+ ".txt" in
    match fs !! filename with
    | Some _ => (HttpRedirect ("/page/" +:+ slug) StatusFound, fs)
    | None =>
        if osAcceptsName filename then
          (HttpRedirect ("/page/" +:+ slug) StatusSeeOther,
           <[filename := File (defaultBodyOf name)]> fs)
        else (HttpError "Could not save page" StatusInternalServerError, fs)
    end.
Proof.
  intros Hm Hd Hvalid Hne. cbv zeta.
  pose proof Hvalid as Hall. apply charchecker_None in Hall.
  destruct (deriveSlug_valid mapLower name Hall) as (_ & Hslug & Hslug0).
  assert (Hsp : String.eqb name " " = false).
  { apply String.eqb_neq. intros ->. discriminate. }
  unfold createPageHandler. rewrite Hm, Hd, Hvalid.
  change (negb (String.eqb "POST" MethodPost)) with false. cbv iota.
  apply String.eqb_neq in Hne. rewrite Hne, Hsp. simpl orb. cbv iota.
  rewrite (Join_pages_slug (deriveSlug mapLower name) ".txt");
    [| assumption | assumption | simpl; lia | reflexivity].
  unfold Stat, WriteFile, defaultBodyOf.
  destruct (fs !! ("pages/" +:+ deriveSlug mapLower name +:+ ".txt"));
    [reflexivity|].
  now destruct (osAcceptsName _).
Qed.

(** X6: a create leaves the store as it is, or adds one page file: for a
    POST whose name passed the validation and whose slug has no file yet,
    the file "pages/<slug>.txt" with the default body. So a node that is
    in the store stays as it is: no page, link file or tally is
    overwritten or removed by a create. *)
Theorem create_only_adds_a_page (mapLower : string -> string)
    (r : Request) (fs : filesystem) :
  ((createPageHandler mapLower r fs).2 = fs \/
   exists name,
     Method r = "POST" /\ Decoded r = Some name /\
     charchecker name = None /\ name <> "" /\
     fs !! ("pages/" +:+ deriveSlug mapLower name +:+ ".txt") = None /\
     createPageHandler mapLower r fs =
       (HttpRedirect ("/page/" +:+ deriveSlug mapLower name) StatusSeeOther,
        <["pages/" +:+ deriveSlug mapLower name +:+ ".txt" :=
            File (defaultBodyOf name)]> fs)) /\
  (forall path n,
      fs !! path = Some n ->
      (createPageHandler mapLower r fs).2 !! path = Some n).
Proof.
  assert (Hcases :
    (createPageHandler mapLower r fs).2 = fs \/
    exists name,
      Method r = "POST" /\ Decoded r = Some name /\
      charchecker name = None /\ name <> "" /\
      fs !! ("pages/" +:+ deriveSlug mapLower name +:+ ".txt") = None /\
      createPageHandler mapLower r fs =
        (HttpRedirect ("/page/" +:+ deriveSlug mapLower name) StatusSeeOther,
         <["pages/" +:+ deriveSlug mapLower name +:+ ".txt" :=
             File (defaultBodyOf name)]> fs)).
  { destruct (String.eqb_spec (Method r) "POST") as [Hm|Hm].
    - destruct (Decoded r) as [name|] eqn:Hd.
      + destruct (charchecker name) as [err|] eqn:Hvalid.
        * left. unfold createPageHandler.
          rewrite Hm, Hd, Hvalid. reflexivity.
        * destruct (String.eqb_spec name "") as [->|Hne].
          -- left. unfold createPageHandler. rewrite Hm, Hd. reflexivity.
          -- pose proof (createPageHandler_valid mapLower r fs name
                           Hm Hd Hvalid Hne) as Hrun. cbv zeta in Hrun.
             destruct (fs !! ("pages/" +:+ deriveSlug mapLower name +:+ ".txt"))
               eqn:Hfile.
             ++ left. now rewrite Hrun.
             ++ destruct (osAcceptsName _).
                ** right. exists name. repeat split; auto.
                ** left. now rewrite Hrun.
      + left. unfold createPageHandler. rewrite Hm, Hd. reflexivity.
    - left. unfold createPageHandler.
      apply String.eqb_neq in Hm. unfold MethodPost. now rewrite Hm. }
  split; [exact Hcases|].
  intros path n Hpath.
  destruct Hcases as [-> | (name & _ & _ & _ & _ & Hnone & ->)];
    [exact Hpath|].
  simpl. rewrite lookup_insert_ne; [exact Hpath|].
  intros <-. congruence.
Qed.

(** X7: "Page name is required" is the answer for the empty name of a
    POST and for nothing else; the name of one space, which the handler
    also tests for, never gets there, because charchecker has turned it
    down before with the bad-name message. *)
Theorem create_name_required_iff (mapLower : string -> string)
    (r : Request) (fs : filesystem) :
  ((createPageHandler mapLower r fs).1 =
     HttpError "Page name is required" StatusBadRequest
   <-> Method r = "POST" /\ Decoded r = Some "") /\
  (Method r = "POST" -> Decoded r = Some " " ->
   createPageHandler mapLower r fs =
     (HttpError "Bad name found, try again. Cannot use symbols, try words only."
        StatusBadRequest, fs)).
Proof.
  split.
  - split.
    + destruct (String.eqb_spec (Method r) "POST") as [Hm|Hm].
      * destruct (Decoded r) as [name|] eqn:Hd.
        -- destruct (charchecker name) as [err|] eqn:Hvalid.
           ++ unfold createPageHandler. rewrite Hm, Hd, Hvalid. discriminate.
           ++ destruct (String.eqb_spec name "") as [->|Hne]; [auto|].
              rewrite (createPageHandler_valid mapLower r fs name
                         Hm Hd Hvalid Hne). cbv zeta.
              destruct (fs !! _); [discriminate|].
              destruct (osAcceptsName _); discriminate.
        -- unfold createPageHandler. rewrite Hm, Hd. discriminate.
      * unfold createPageHandler. apply String.eqb_neq in Hm.
        unfold MethodPost. rewrite Hm. discriminate.
    + intros [Hm Hd]. unfold createPageHandler. now rewrite Hm, Hd.
  - intros Hm Hd. unfold createPageHandler. now rewrite Hm, Hd.
Qed.





(** X9: names that differ in their underscores only share one page: when
    the first is created (its slug has no file yet and the operating
    system accepts the page file name), a create of the second answers
    302 to the page of the first and stores nothing, so its own name is
    never shown. *)
Theorem create_underscore_collision (mapLower : string -> string)
    (fs : filesystem) (name1 name2 : string) :
  charchecker name1 = None -> charchecker name2 = None ->
  name1 <> "" -> name2 <> "" ->
  dropUnderscores name1 = dropUnderscores name2 ->
  fs !! ("pages/" +:+ deriveSlug mapLower name1 +:+ ".txt") = None ->
  osAcceptsName ("pages/" +:+ deriveSlug mapLower name1 +:+ ".txt") = true ->
  serve (createPageHandler mapLower)
    [request "POST" "/create" (Some name1);
     request "POST" "/create" (Some name2)] fs =
  ([HttpRedirect ("/page/" +:+ deriveSlug mapLower name1) StatusSeeOther;
    HttpRedirect ("/page/" +:+ deriveSlug mapLower name1) StatusFound],
   <["pages/" +:+ deriveSlug mapLower name1 +:+ ".txt" :=
       File (defaultBodyOf name1)]> fs).
Proof.
  intros Hv1 Hv2 Hne1 Hne2 Hsame Hnone Hok.
  assert (Hslug : deriveSlug mapLower name2 = deriveSlug mapLower name1).
  { apply charchecker_None in Hv1, Hv2.
    destruct (deriveSlug_valid mapLower name1 Hv1) as (-> & _ & _).
    destruct (deriveSlug_valid mapLower name2 Hv2) as (-> & _ & _).
    rewrite (keepChars_ext slugClass (fun c => negb (Ascii.eqb c "_"))
               nameClass name1 nameClass_slugClass Hv1).
    rewrite (keepChars_ext slugClass (fun c => negb (Ascii.eqb c "_"))
               nameClass name2 nameClass_slugClass Hv2).
    fold (dropUnderscores name1). fold (dropUnderscores name2).
    now rewrite Hsame. }
  cbn [serve].
  rewrite (createPageHandler_valid mapLower
             (request "POST" "/create" (Some name1)) fs name1
             eq_refl eq_refl Hv1 Hne1).
  cbv zeta. rewrite Hnone, Hok.
  rewrite (createPageHandler_valid mapLower
             (request "POST" "/create" (Some name2)) _ name2
             eq_refl eq_refl Hv2 Hne2).
  cbv zeta. rewrite Hslug, lookup_insert_eq. reflexivity.
Qed.

Lemma create_underscore_collision_witness :
  serve (createPageHandler asciiMapLower)
    [request "POST" "/create" (Some "my_page");
     request "POST" "/create" (Some "mypage")] ∅ =
  ([HttpRedirect ("/page/" +:+ deriveSlug asciiMapLower "my_page")
      StatusSeeOther;
    HttpRedirect ("/page/" +:+ deriveSlug asciiMapLower "my_page")
      StatusFound],
   <["pages/" +:+ deriveSlug asciiMapLower "my_page" +:+ ".txt" :=
       File (defaultBodyOf "my_page")]> ∅).
Proof.
  apply (create_underscore_collision asciiMapLower ∅ "my_page" "mypage");
    [reflexivity | reflexivity | discriminate | discriminate
    | reflexivity | reflexivity | reflexivity].
Defined.

(** ** The page viewer: only the last element of the path counts *)

Lemma Split_nonempty (s : string) (sep : ascii) : Split s sep <> [].
Proof.
  destruct s as [|c s]; simpl; [discriminate|].
  destruct (Ascii.eqb c sep); [discriminate|].
  destruct (Split s sep); discriminate.
Qed.

Lemma Split_app_any (a b : string) (sep : ascii) :
  Split (a +:+ String sep b) sep = (Split a sep ++ Split b sep)%list.
Proof.
  induction a as [|c a IH].
  - rewrite app_empty_l. simpl. now rewrite Ascii.eqb_refl.
  - rewrite app_String. simpl. rewrite IH.
    destruct (Ascii.eqb c sep); [reflexivity|].
    pose proof (Split_nonempty a sep).
    destruct (Split a sep); [contradiction | reflexivity].
Qed.

Lemma trimTrailingSlashes_app (a s : string) :
  s <> "" -> anyChar isSlash s = false ->
  trimTrailingSlashes (a +:+ s) = a +:+ s.
Proof.
  intros Hne Hslash. induction a as [|c a IH].
  - rewrite app_empty_l. now apply trimTrailingSlashes_no_slash.
  - rewrite app_String. simpl. rewrite IH.
    destruct (a +:+ s) eqn:Has; [|reflexivity].
    destruct a; [|rewrite app_String in Has; discriminate].
    rewrite app_empty_l in Has. contradiction.
Qed.

Lemma trimTrailingSlashes_slash (p : string) :
  trimTrailingSlashes (p +:+ "/") = trimTrailingSlashes p.
Proof.
  induction p as [|c p IH]; [reflexivity|].
  rewrite app_String. simpl. now rewrite IH.
Qed.

Lemma Base_last_element (dir s : string) :
  s <> "" -> anyChar isSlash s = false -> Base (dir +:+ "/" +:+ s) = s.
Proof.
  intros Hne Hslash. unfold Base.
  assert (Hpath : String.eqb (dir +:+ "/" +:+ s) "" = false).
  { apply String.eqb_neq. destruct dir; discriminate. }
  rewrite Hpath.
  replace (dir +:+ "/" +:+ s) with ((dir +:+ "/") +:+ s)
    by now rewrite app_assoc_str.
  rewrite (trimTrailingSlashes_app _ s Hne Hslash).
  rewrite app_assoc_str.
  change (dir +:+ "/" +:+ s) with (dir +:+ String "/" s).
  rewrite Split_app_any, (Split_no_sep s "/" Hslash), last_last.
  apply String.eqb_neq in Hne. now rewrite Hne.
Qed.

Lemma Base_trailing_slash (p : string) :
  p <> "" -> Base (p +:+ "/") = Base p.
Proof.
  intros Hne. unfold Base.
  assert (H1 : String.eqb (p +:+ "/") "" = false).
  { apply String.eqb_neq. destruct p; discriminate. }
  apply String.eqb_neq in Hne.
  now rewrite H1, Hne, trimTrailingSlashes_slash.
Qed.

Lemma pageViewHandler_of_Base (fs : filesystem) (r : Request)
    (slug s : string) :
  URLPath r = "/page/" +:+ slug -> Base slug = s ->
  s <> "" -> anyChar isSlash s = false ->
  pageViewHandler r fs = viewOf fs s.
Proof.
  intros Hpath Hbase Hne Hslash.
  unfold pageViewHandler, viewOf, linkList, youtubeFilename.
  rewrite Hpath, (sliceFrom_app "/page/" slug), Hbase.
  rewrite (Join_pages_part s ".txt");
    [| exact Hslash | simpl; lia | reflexivity].
  rewrite (Join_pages_part s ".youtube.txt");
    [| exact Hslash | simpl; lia | reflexivity].
  destruct (ReadFile fs ("pages/" +:+ s +:+ ".txt")); [|reflexivity].
  destruct (ReadFile fs ("pages/" +:+ s +:+ ".youtube.txt")); [|reflexivity].
  now rewrite embedURLsOf_spec.
Qed.

(** X10: the viewer answers by the last element of the request path
    alone. For a name s without slash, "/page/s", "/page/s/" and
    "/page/<anything>/s" all give the same answer, whatever the method:
    404 when "pages/s.txt" cannot be read, and otherwise the page with
    title s, the content of that file and the links of
    "pages/s.youtube.txt". So "/page/../../etc/passwd" is the page
    "passwd". *)
Theorem view_by_last_element (fs : filesystem) (method : string)
    (decoded : option string) (dir s : string) :
  s <> "" -> anyChar isSlash s = false ->
  pageViewHandler (request method ("/page/" +:+ s) decoded) fs = viewOf fs s /\
  pageViewHandler (request method ("/page/" +:+ s +:+ "/") decoded) fs =
    viewOf fs s /\
  pageViewHandler (request method ("/page/" +:+ dir +:+ "/" +:+ s) decoded) fs =
    viewOf fs s.
Proof.
  intros Hne Hslash. split; [|split].
  - apply (pageViewHandler_of_Base fs _ s s); auto.
    now apply Base_no_slash.
  - apply (pageViewHandler_of_Base fs _ (s +:+ "/") s); auto.
    rewrite Base_trailing_slash by exact Hne. now apply Base_no_slash.
  - apply (pageViewHandler_of_Base fs _ (dir +:+ "/" +:+ s) s); auto.
    now apply Base_last_element.
Qed.

Lemma view_by_last_element_witness :
  pageViewHandler (request "GET" ("/page/" +:+ "../../etc" +:+ "/" +:+ "passwd")
                           None)
    (<["pages/passwd.txt" := File "body"]> ∅) =
  viewOf (<["pages/passwd.txt" := File "body"]> ∅) "passwd" /\
  (viewOf (<["pages/passwd.txt" := File "body"]> ∅) "passwd").1 =
    RenderPage {| Title := "passwd"; Body := "body"; YouTubeEmbed := [] |} /\
  (viewOf ∅ "nonexistent").1 = HttpNotFound.
Proof.
  split; [|split; reflexivity].
  apply (view_by_last_element _ "GET" None "../../etc" "passwd");
    [discriminate | reflexivity].
Defined.

(** ** The link store on every routed path *)


Lemma routed_path_parts (kind rest : string) :
  anyChar isSlash kind = false ->
  Split ("/api/" +:+ kind +:+ "/" +:+ rest) "/" =
  "" :: "api" :: kind :: Split rest "/".
Proof.
  intros Hkind.
  change ("/api/" +:+ kind +:+ "/" +:+ rest)
    with ("" +:+ String "/" ("api" +:+ String "/" (kind +:+ String "/" rest))).
  now rewrite !Split_app_sep.
Qed.






Lemma WriteFile_other (fs fs' : filesystem) (name data path : string) :
  WriteFile fs name data = Some fs' -> path <> name ->
  fs' !! path = fs !! path.
Proof.
  unfold WriteFile. intros H Hne.
  destruct (osAcceptsName name); [|discriminate].
  destruct (fs !! name) as [[c|]|]; inversion H; subst;
    now rewrite lookup_insert_ne.
Qed.




(** ** The link store keeps the order of the links *)








(** ** The first link store: one link per page *)




(** ** The vote store on every routed path *)

Lemma Split_with_sep (s : string) (sep : ascii) :
  anyChar (fun c => Ascii.eqb c sep) s = true ->
  (2 <= length (Split s sep))%nat.
Proof.
  induction s as [|c s IH]; simpl; [discriminate|].
  destruct (Ascii.eqb c sep) eqn:Hc; simpl.
  - intros _. pose proof (Split_nonempty s sep).
    destruct (Split s sep); [contradiction | simpl; lia].
  - intros Hs. specialize (IH Hs).
    destruct (Split s sep); simpl in *; lia.
Qed.

Section VoteRouting.

Variable json_Marshal : gmap string Z -> string.
Variable json_Unmarshal : string -> Unmarshaled.

(** X14: on every path under "/api/vote/" the vote store works on the one
    file "pages/vote.votes.json", whatever page the path names: no other
    path of the store is changed. A POST is answered "Invalid URL"
    exactly when nothing or a single segment follows the prefix. *)
Theorem vote_store_is_one_file (r : Request) (fs : filesystem)
    (rest : string) :
  URLPath r = "/api/vote/" +:+ rest ->
  (forall path,
      path <> voteFile ->
      (youtubeVoteHandler json_Marshal json_Unmarshal r fs).2 !! path =
      fs !! path) /\
  (Method r = "POST" ->
   ((youtubeVoteHandler json_Marshal json_Unmarshal r fs).1 =
      HttpError "Invalid URL" StatusBadRequest
    <-> anyChar isSlash rest = false)).
Proof.
  intros Hpath.
  assert (Hparts : Split (URLPath r) "/" =
                   "" :: "api" :: "vote" :: Split rest "/").
  { rewrite Hpath. apply (routed_path_parts "vote" rest eq_refl). }
  split.
  - intros path Hne. unfold youtubeVoteHandler. rewrite Hparts.
    destruct (negb (String.eqb (Method r) MethodPost)); [reflexivity|].
    destruct (length ("" :: "api" :: "vote" :: Split rest "/") <? 5)%nat;
      [reflexivity|].
    cbv zeta. simpl nth.
    change (Join ["pages"; "vote" +:+ ".votes.json"]) with voteFile.
    destruct (negb _ && negb _); [reflexivity|].
    destruct (match ReadFile fs voteFile with
              | Some data => json_Unmarshal data
              | None => Votes ∅
              end) as [| |votes]; [reflexivity|reflexivity|].
    destruct (WriteFile _ _ _) as [fs'|] eqn:Hwrite; [|reflexivity].
    exact (WriteFile_other _ _ _ _ _ Hwrite Hne).
  - intros Hm. unfold youtubeVoteHandler. rewrite Hparts, Hm.
    change (negb (String.eqb "POST" MethodPost)) with false. cbv iota.
    destruct (anyChar isSlash rest) eqn:Hslash.
    + pose proof (Split_with_sep rest "/" Hslash) as Hlen.
      destruct (Nat.ltb_spec (length ("" :: "api" :: "vote" :: Split rest "/")) 5)
        as [Hlt|_]; [simpl in Hlt; lia|].
      split; [|discriminate]. cbv zeta.
      destruct (negb _ && negb _); [discriminate|].
      destruct (match ReadFile fs _ with
                | Some data => json_Unmarshal data
                | None => Votes ∅
                end) as [| |votes]; [discriminate|discriminate|].
      destruct (WriteFile _ _ _); discriminate.
    + rewrite (Split_no_sep rest "/" Hslash). simpl. tauto.
Qed.

End VoteRouting.

Lemma vote_store_is_one_file_witness :
  (forall path,
      path <> voteFile ->
      (youtubeVoteHandler unusedMarshal unusedUnmarshal
         (request "POST" ("/api/vote/" +:+ "mypage/abc123/upvote") None)
         (<["pages/mypage.votes.json" := File "{}"]> ∅)).2 !! path =
      (<["pages/mypage.votes.json" := File "{}"]> ∅ : filesystem) !! path) /\
  (youtubeVoteHandler unusedMarshal unusedUnmarshal
     (request "POST" ("/api/vote/" +:+ "abc123") None) ∅).1 =
    HttpError "Invalid URL" StatusBadRequest.
Proof.
  split.
  - apply (vote_store_is_one_file unusedMarshal unusedUnmarshal
             (request "POST" ("/api/vote/" +:+ "mypage/abc123/upvote") None)
             _ "mypage/abc123/upvote" eq_refl).
  - apply (vote_store_is_one_file unusedMarshal unusedUnmarshal
             (request "POST" ("/api/vote/" +:+ "abc123") None)
             ∅ "abc123" eq_refl); reflexivity.
Defined.

(** ** The tally in the layout the handler reads *)

Lemma wrapInt_small (z : Z) :
  (- 2 ^ 63 <= z < 2 ^ 63)%Z -> wrapInt z = z.
Proof.
  intros Hz. unfold wrapInt. rewrite Z.mod_small; lia.
Qed.

Lemma voteSum_cons (up : bool) (ups : list bool) :
  voteSum (up :: ups) = (voteSum ups + (if up then 1 else -1))%Z.
Proof. reflexivity. Qed.

Lemma voteSum_bound (ups : list bool) :
  (- Z.of_nat (length ups) <= voteSum ups <= Z.of_nat (length ups))%Z.
Proof.
  induction ups as [|up ups IH]; [simpl; lia|].
  rewrite voteSum_cons. simpl length. destruct up; lia.
Qed.

Lemma voteSum_counts (ups : list bool) :
  voteSum ups =
  (Z.of_nat (length (List.filter (fun up => up) ups)) -
   Z.of_nat (length (List.filter negb ups)))%Z.
Proof.
  induction ups as [|up ups IH]; [reflexivity|].
  rewrite voteSum_cons, IH. destruct up; simpl; lia.
Qed.

Lemma ofDigits_digitsOf (p : positive) : ofDigits (digitsOf p) = Some p.
Proof. induction p as [p IH|p IH|]; simpl; now rewrite ?IH. Qed.

Lemma digits_round_trip (votes : gmap string Z) :
  digitsUnmarshal (digitsMarshal votes) = Votes votes.
Proof.
  unfold digitsUnmarshal, digitsMarshal.
  now rewrite ofDigits_digitsOf, decode_encode.
Qed.

Section VoteTally.

Variable json_Marshal : gmap string Z -> string.
Variable json_Unmarshal : string -> Unmarshaled.

Lemma shortVote_step (fs : filesystem) (videoID : string) (up : bool)
    (votes : gmap string Z) :
  anyChar isSlash videoID = false ->
  match fs !! voteFile with
  | None => votes = ∅
  | Some (File data) => json_Unmarshal data = Votes votes
  | Some Dir => False
  end ->
  youtubeVoteHandler json_Marshal json_Unmarshal
    (shortVoteRequest videoID up) fs =
  (Wrote StatusOK "Vote saved!",
   <[voteFile :=
       File (json_Marshal
               (<[videoID :=
                    wrapInt (default 0%Z (votes !! videoID) +
                             (if up then 1 else -1))]> votes))]> fs).
Proof.
  intros Hvid Hstore. unfold shortVoteRequest.
  rewrite (vote_counts_at_shifted_path json_Marshal json_Unmarshal fs videoID
             (if up then "upvote" else "downvote") votes Hvid);
    [now destruct up | destruct up; auto | exact Hstore].
Qed.

Lemma votes_from_state (videoID : string) (ups : list bool) :
  anyChar isSlash videoID = false ->
  (forall z : Z,
      (- 2 ^ 63 <= z < 2 ^ 63)%Z ->
      json_Unmarshal (json_Marshal {[videoID := z]}) = Votes {[videoID := z]}) ->
  forall (z0 : Z) (fs : filesystem),
    fs !! voteFile = Some (File (json_Marshal {[videoID := z0]})) ->
    (Z.abs z0 + Z.of_nat (length ups) < 2 ^ 63)%Z ->
    serve (youtubeVoteHandler json_Marshal json_Unmarshal)
      (shortVoteRequests videoID ups) fs =
    (List.map (fun _ => Wrote StatusOK "Vote saved!") ups,
     <[voteFile := File (json_Marshal {[videoID := (z0 + voteSum ups)%Z]})]> fs).
Proof.
  intros Hvid Hround. induction ups as [|up ups IH]; intros z0 fs Hfile Hlen.
  - simpl. rewrite Z.add_0_r. now rewrite insert_id.
  - cbn [serve shortVoteRequests List.map].
    rewrite (shortVote_step fs videoID up {[videoID := z0]} Hvid)
      by (rewrite Hfile; apply Hround; lia).
    rewrite lookup_singleton_eq, insert_singleton_eq. simpl default.
    simpl length in Hlen.
    rewrite wrapInt_small by (destruct up; lia).
    fold (shortVoteRequests videoID ups).
    rewrite (IH (z0 + (if up then 1 else -1))%Z);
      [| apply lookup_insert_eq | destruct up; lia].
    rewrite insert_insert_eq, voteSum_cons.
    replace (z0 + (if up then 1 else -1) + voteSum ups)%Z
      with (z0 + (voteSum ups + (if up then 1 else -1)))%Z
      by (destruct up; lia).
    reflexivity.
Qed.

(** X15: in the layout that the indices of the handler fit, POST
    /api/vote/{videoID}/{upvote|downvote}, the votes do add up: from a
    store without tally file, N upvotes and M downvotes for a video, in
    any order, are all answered 200 and leave a tally file that reads as
    the one entry N - M for the video, as long as a tally of one entry
    for the video with a count in the range of a 64-bit integer reads
    back as it was written, and fewer than 2^63 votes are cast. *)
Theorem short_votes_add_up (fs : filesystem) (videoID : string)
    (ups : list bool) :
  anyChar isSlash videoID = false ->
  (forall z : Z,
      (- 2 ^ 63 <= z < 2 ^ 63)%Z ->
      json_Unmarshal (json_Marshal {[videoID := z]}) = Votes {[videoID := z]}) ->
  fs !! voteFile = None ->
  ups <> [] ->
  (Z.of_nat (length ups) < 2 ^ 63)%Z ->
  exists fs' data,
    serve (youtubeVoteHandler json_Marshal json_Unmarshal)
      (shortVoteRequests videoID ups) fs =
      (List.map (fun _ => Wrote StatusOK "Vote saved!") ups, fs') /\
    ReadFile fs' voteFile = Some data /\
    json_Unmarshal data =
      Votes {[videoID :=
                (Z.of_nat (length (List.filter (fun up => up) ups)) -
                 Z.of_nat (length (List.filter negb ups)))%Z]}.
Proof.
  intros Hvid Hround Hnone Hne Hlen.
  destruct ups as [|up ups]; [contradiction|]. clear Hne.
  simpl length in Hlen.
  eexists _, _. cbn [serve shortVoteRequests List.map].
  rewrite (shortVote_step fs videoID up ∅ Hvid) by now rewrite Hnone.
  rewrite lookup_empty, insert_empty. simpl default.
  rewrite wrapInt_small by (destruct up; lia).
  fold (shortVoteRequests videoID ups).
  rewrite (votes_from_state videoID ups Hvid Hround
             (0 + (if up then 1 else -1))%Z);
    [| apply lookup_insert_eq | destruct up; lia].
  rewrite insert_insert_eq. split; [reflexivity|].
  unfold ReadFile. rewrite lookup_insert_eq. split; [reflexivity|].
  pose proof (voteSum_bound ups) as Hsum.
  rewrite Hround by (destruct up; lia).
  rewrite <- (voteSum_counts (up :: ups)), voteSum_cons.
  replace (0 + (if up then 1 else -1) + voteSum ups)%Z
    with (voteSum ups + (if up then 1 else -1))%Z by (destruct up; lia).
  reflexivity.
Qed.

End VoteTally.

Lemma short_votes_add_up_witness :
  exists fs' data,
    serve (youtubeVoteHandler digitsMarshal digitsUnmarshal)
      (shortVoteRequests "abc123" [true; false; false]) ∅ =
      (List.map (fun _ => Wrote StatusOK "Vote saved!") [true; false; false],
       fs') /\
    ReadFile fs' voteFile = Some data /\
    digitsUnmarshal data =
      Votes {["abc123" :=
                (Z.of_nat (length (List.filter (fun up => up)
                                     [true; false; false])) -
                 Z.of_nat (length (List.filter negb [true; false; false])))%Z]}.
Proof.
  apply (short_votes_add_up digitsMarshal digitsUnmarshal ∅ "abc123"
           [true; false; false]);
    [reflexivity | intros z _; apply digits_round_trip | reflexivity
    | discriminate | simpl; lia].
Defined.

(** ** A tally that does not parse *)

Section VoteFailures.

Variable json_Marshal : gmap string Z -> string.
Variable json_Unmarshal : string -> Unmarshaled.

(** X16: a tally file that json.Unmarshal refuses stops the voting: from
    then on every vote that names an action is answered 500 "Could not
    process votes" and the file stays as it is; the handler never
    replaces or repairs it. *)
Theorem unreadable_tally_blocks_votes (fs : filesystem) (data : string)
    (votes : list (string * bool)) :
  fs !! voteFile = Some (File data) ->
  json_Unmarshal data = UnmarshalError ->
  Forall (fun v => anyChar isSlash v.1 = false) votes ->
  serve (youtubeVoteHandler json_Marshal json_Unmarshal)
    (List.map (fun v => shortVoteRequest v.1 v.2) votes) fs =
  (List.map (fun _ => HttpError "Could not process votes"
                                StatusInternalServerError) votes, fs).
Proof.
  intros Hfile Hbad Hvotes.
  induction Hvotes as [|[videoID up] votes Hvid _ IH]; [reflexivity|].
  cbn [serve List.map]. simpl in Hvid.
  assert (Hstep : youtubeVoteHandler json_Marshal json_Unmarshal
                    (shortVoteRequest videoID up) fs =
                  (HttpError "Could not process votes"
                             StatusInternalServerError, fs)).
  { unfold youtubeVoteHandler, shortVoteRequest.
    assert (Hparts :
      Split (URLPath (request "POST"
               ("/api/vote/" +:+ videoID +:+ "/" +:+
                (if up then "upvote" else "downvote")) None)) "/" =
      [""; "api"; "vote"; videoID; if up then "upvote" else "downvote"]).
    { etransitivity;
        [apply (Split_api_path "vote" videoID
                  (if up then "upvote" else "downvote"));
         [reflexivity | exact Hvid] |].
      now destruct up. }
    rewrite Hparts. simpl Method. simpl length. simpl nth.
    change (Join ["pages"; "vote" +:+ ".votes.json"]) with voteFile.
    change (negb (String.eqb "POST" MethodPost)) with false.
    change (5 <? 5)%nat with false. cbv iota. cbv zeta.
    unfold ReadFile. rewrite Hfile, Hbad. now destruct up. }
  simpl fst. simpl snd. rewrite Hstep, IH. reflexivity.
Qed.

End VoteFailures.

Lemma unreadable_tally_blocks_votes_witness :
  serve (youtubeVoteHandler unusedMarshal unusedUnmarshal)
    (List.map (fun v => shortVoteRequest v.1 v.2)
       [("abc123", true); ("xyz", false)])
    (<[voteFile := File "not json"]> ∅) =
  (List.map (fun _ => HttpError "Could not process votes"
                                StatusInternalServerError)
     [("abc123", true); ("xyz", false)],
   <[voteFile := File "not json"]> ∅).
Proof.
  apply (unreadable_tally_blocks_votes unusedMarshal unusedUnmarshal
           _ "not json"); [reflexivity | reflexivity |].
  repeat (apply List.Forall_cons; [reflexivity|]). apply List.Forall_nil.
Defined.

(** ** Link files as pages *)


